(** * 123STRM: the tree synchronizer of [plugins/123STRM/123strm.py]

    A shallow embedding of the script's functions ([sanitize_filename],
    [download_file] with its retry decorator, [process_item],
    [generate_strm]) and the properties of its specification.

    Python values are embedded as follows.
    - A [str] is the list of its Unicode code points ([pystr]).
    - File contents are lists of bytes; text written with
      [encoding="utf-8"] goes through [utf8_encode].
    - The local file system is a finite map from path strings to nodes.
    - The remote client, the HTTP transport and the local I/O error
      conditions are collaborators of the script: they are parameters of
      the development (an abstract remote state with one transition
      function per call).
    - Effects (log records, remote calls, sleeps) are recorded, in order,
      in the trace of the world. *)

From Stdlib Require Import ZArith NArith List String Ascii Lia DecimalString.
From Stdlib Require Import Strings.Byte.
From stdpp Require Import base option list gmap.

Local Open Scope N_scope.

(** ** Python strings *)

Abbreviation pystr := (list N).

(** The code points of an ASCII literal. *)
Definition lit (s : string) : pystr :=
  List.map N_of_ascii (list_ascii_of_string s).

(** [str(n)] for a Python [int]. *)
Definition str_int (z : Z) : pystr :=
  lit (NilEmpty.string_of_int (Z.to_int z)).

(** [s.startswith(p)] *)
Fixpoint startswith (s p : pystr) : bool :=
  match p, s with
  | [], _ => true
  | _ :: _, [] => false
  | a :: p', b :: s' => (a =? b) && startswith s' p'
  end.

(** [s.endswith(p)] for one suffix, and for a tuple of suffixes. *)
Definition endswith1 (s p : pystr) : bool :=
  startswith (rev s) (rev p).

Definition endswith (s : pystr) (ps : list pystr) : bool :=
  existsb (endswith1 s) ps.

(** [str.isspace] on one code point: the white-space table of CPython
    ([_PyUnicode_IsWhitespace]). *)
Definition isspace (c : N) : bool :=
  ((9 <=? c) && (c <=? 13)) || ((28 <=? c) && (c <=? 32))
  || (c =? 133) || (c =? 160) || (c =? 5760)
  || ((8192 <=? c) && (c <=? 8202))
  || (c =? 8232) || (c =? 8233) || (c =? 8239) || (c =? 8287)
  || (c =? 12288).

(** [s.lstrip(...)] and [s.rstrip(...)], by the predicate of the
    characters that are removed. *)
Fixpoint lstrip_with (f : N -> bool) (s : pystr) : pystr :=
  match s with
  | [] => []
  | c :: s' => if f c then lstrip_with f s' else s
  end.

Fixpoint rstrip_with (f : N -> bool) (s : pystr) : pystr :=
  match s with
  | [] => []
  | c :: s' =>
      match rstrip_with f s' with
      | [] => if f c then [] else [c]
      | r => c :: r
      end
  end.

(** [s.strip()] removes leading and trailing white space. *)
Definition strip (s : pystr) : pystr :=
  rstrip_with isspace (lstrip_with isspace s).

(** [s.rfind(c)] for a single character: the index of its last
    occurrence, [-1] when there is none. *)
Fixpoint rfind_from (c : N) (s : pystr) (i acc : Z) : Z :=
  match s with
  | [] => acc
  | x :: s' => rfind_from c s' (i + 1)%Z (if x =? c then i else acc)
  end.

Definition rfind (s : pystr) (c : N) : Z := rfind_from c s 0%Z (-1)%Z.

(** The slices [s[:i]], [s[i:]] and [s[i:j]] for indices that are not
    negative. *)
Definition slice_to (s : pystr) (i : Z) : pystr := take (Z.to_nat i) s.
Definition slice_from (s : pystr) (i : Z) : pystr := drop (Z.to_nat i) s.
Definition slice (s : pystr) (i j : Z) : pystr :=
  take (Z.to_nat j - Z.to_nat i) (drop (Z.to_nat i) s).

(** [str.lower] is ASCII lowering on a string of ASCII characters; on
    other strings it follows the Unicode case tables, which are a
    parameter ([unicode_lower] below). *)
Definition ascii_lower_char (c : N) : N :=
  if (65 <=? c) && (c <=? 90) then c + 32 else c.

Definition is_ascii (s : pystr) : bool := forallb (fun c => c <? 128) s.

(** ** os.path (posixpath) *)

Definition sep : N := 47.
Definition extsep : N := 46.

Definition os_path_join (a b : pystr) : pystr :=
  if startswith b [sep] then b
  else if (match a with [] => true | _ => false end) || endswith1 a [sep]
       then a ++ b
       else a ++ [sep] ++ b.

Definition os_path_dirname (p : pystr) : pystr :=
  let i := (rfind p sep + 1)%Z in
  let head := slice_to p i in
  if (match head with [] => false | _ => true end)
     && negb (forallb (N.eqb sep) head)
  then rstrip_with (N.eqb sep) head
  else head.

Definition os_path_splitext (p : pystr) : pystr * pystr :=
  let sepIndex := rfind p sep in
  let dotIndex := rfind p extsep in
  if (sepIndex <? dotIndex)%Z
     && existsb (fun c => negb (c =? extsep))
                (slice p (sepIndex + 1) dotIndex)
  then (slice_to p dotIndex, slice_from p dotIndex)
  else (p, []).

(** ** Configuration constants *)

Definition VIDEO_EXTS : list pystr :=
  List.map lit [".mp4"; ".mkv"; ".avi"; ".mov"; ".flv"; ".ts"; ".iso";
                ".rmvb"; ".m2ts"]%string.

Definition SUBTITLE_EXTS : list pystr :=
  List.map lit [".srt"; ".ass"; ".ssa"; ".sub"; ".txt"; ".vtt"; ".ttml";
                ".dfxp"]%string.

Definition REQUEST_DELAY : Z := 1.
Definition DIR_DELAY : Z := 2.
Definition TIMEOUT : Z := 30.
Definition MAX_RETRIES : nat := 3.
Definition DIRECT_LINK_SERVICE_URL : pystr := lit "http://172.17.0.1:8123".

(** ** sanitize_filename *)

(** The character class of the pattern: backslash, slash, colon, star,
    question mark, less-than, greater-than, pipe, tab, double quote. *)
Definition reserved_chars : pystr :=
  [92; 47; 58; 42; 63; 60; 62; 124; 9; 34].

Definition is_reserved (c : N) : bool :=
  existsb (N.eqb c) reserved_chars.

Definition underscore : N := 95.

(** [re.sub(r'[...]', "_", filename)] *)
Definition re_sub_reserved (filename : pystr) : pystr :=
  List.map (fun c => if is_reserved c then underscore else c) filename.

Definition sanitize_filename (filename : pystr) : pystr :=
  let clean_name := strip (re_sub_reserved filename) in
  take 200 clean_name.

(** ** Values, items and responses *)

(** The scalar values of a decoded JSON object. *)
Inductive pyval :=
  | PNone
  | PBool (b : bool)
  | PInt (z : Z)
  | PStr (s : pystr).

(** Truth value of a Python value ([if v], [v or w]). *)
Definition truthy (v : pyval) : bool :=
  match v with
  | PNone => false
  | PBool b => b
  | PInt z => negb (z =? 0)%Z
  | PStr s => match s with [] => false | _ => true end
  end.

Definition py_or (a b : pyval) : pyval := if truthy a then a else b.

(** [str(v)], the text an f-string field produces. *)
Definition py_str (v : pyval) : pystr :=
  match v with
  | PNone => lit "None"
  | PBool true => lit "True"
  | PBool false => lit "False"
  | PInt z => str_int z
  | PStr s => s
  end.

(** A remote item as the directory listing yields it: the keys
    ["FileName"], ["FileId"], ["Size"] and ["Type"] (non-zero for a
    directory). *)
Record item := {
  FileName : pystr;
  FileId : Z;
  Size : Z;
  Type_ : Z
}.

(** Exceptions: an instance of a subclass of [Exception], by the name of
    its class, or tenacity's [RetryError] around the exception of the last
    attempt. *)
Inductive exn :=
  | Exc (cls : string)
  | RetryError (last_attempt : exn).

Inductive outcome (A : Type) :=
  | Returned (a : A)
  | Raised (e : exn).
Arguments Returned {A} a.
Arguments Raised {A} e.

(** The response of a streamed GET, as far as the script looks at it.
    - [status_error]: what [raise_for_status()] raises, if anything.
    - [content_length_int]: [int(headers.get('content-length', 0))], which
      raises [ValueError] on a malformed header.
    - [chunks]: what [iter_bytes()] yields.
    - [stream_error]: what the iterator raises after the last chunk. *)
Record response := {
  status_error : option exn;
  content_length_int : outcome Z;
  chunks : list (list byte);
  stream_error : option exn
}.

(** ** The local file system *)

Inductive node :=
  | File (content : list byte)
  | Dir.

Inductive open_mode := ModeW | ModeWB | ModeAB.

Inductive io_op :=
  | OpMakedirs (name : pystr)
  | OpOpen (path : pystr) (mode : open_mode)
  | OpWrite (path : pystr) (data : list byte).

(** UTF-8 encoding with [errors='strict']: surrogates cannot be encoded. *)
Definition to_byte (n : N) : byte :=
  match Byte.of_N (n mod 256) with Some b => b | None => x00 end.

Definition utf8_encode_char (c : N) : option (list byte) :=
  if c <? 128 then Some [to_byte c]
  else if c <? 2048 then
    Some [to_byte (192 + c / 64); to_byte (128 + c mod 64)]
  else if c <? 65536 then
    if (55296 <=? c) && (c <=? 57343) then None
    else Some [to_byte (224 + c / 4096); to_byte (128 + (c / 64) mod 64);
               to_byte (128 + c mod 64)]
  else if c <? 1114112 then
    Some [to_byte (240 + c / 262144); to_byte (128 + (c / 4096) mod 64);
          to_byte (128 + (c / 64) mod 64); to_byte (128 + c mod 64)]
  else None.

Fixpoint utf8_encode (s : pystr) : option (list byte) :=
  match s with
  | [] => Some []
  | c :: s' =>
      match utf8_encode_char c, utf8_encode s' with
      | Some b, Some bs => Some (b ++ bs)
      | _, _ => None
      end
  end.

(** ** Log records and the trace *)

Inductive level := INFO | WARNING | ERROR | CRITICAL.

(** The log messages of the script, by their template and arguments. *)
Inductive message :=
  | MsgFileComplete (local_path : pystr)
  | MsgPartialFound (local_path : pystr) (local_size size : Z)
  | MsgDownloadDone (local_path : pystr)
  | MsgDownloadFailed (local_path : pystr) (e : exn)
  | MsgRetrying
  | MsgMissingField (file_name field : pystr)
  | MsgStrmGenerated (strm_path : pystr)
  | MsgProcessFailed (file_name : pystr) (e : exn)
  | MsgDirStart (parent_id : Z)
  | MsgProcessing (file_name : pystr)
  | MsgDirDone (parent_id : Z)
  | MsgDirFailed (parent_id : Z) (e : exn).

Inductive event :=
  | Log (lvl : level) (m : message)
  | CallDownloadInfo (it : item)
  | CallFsInfo (file_id : Z)
  | CallIterdir (parent_id : Z)
  | HttpGet (url : pystr) (headers : gmap pystr pystr)
  | Sleep (seconds : Z).

Definition is_network_call (e : event) : bool :=
  match e with
  | CallDownloadInfo _ | CallFsInfo _ | CallIterdir _ | HttpGet _ _ => true
  | _ => false
  end.

Definition is_http_get (e : event) : bool :=
  match e with HttpGet _ _ => true | _ => false end.

(** ** The collaborators

    [R] is the state of the remote side. Each call of the client returns
    or raises and moves that state.
    - [client_download_info]: [check_response(client.download_info(item))]
      followed by [resp["data"]["DownloadUrl"]].
    - [client_fs_info]: [check_response(client.fs_info(file_id))] followed
      by [resp["data"]["infoList"]].
    - [iterdir]: [list(iterdir(client, parent_id=..., max_depth=1))].
    - [session_stream]: [session.stream("GET", url, headers=headers)].
    - [io_fault]: the local conditions (permissions, a full disk, a
      missing parent directory) under which an operation on the file
      system raises, given the files that exist.
    - [dir_st_size]: the size [os.path.getsize] reports for a directory.
    - [os_getenv]: the process environment.
    - [unicode_lower]: [str.lower] on strings that are not ASCII. *)
Record Collab (R : Type) := {
  client_download_info : R -> item -> outcome pystr * R;
  client_fs_info : R -> Z -> outcome (list (gmap pystr pyval)) * R;
  iterdir : R -> Z -> outcome (list item) * R;
  session_stream : R -> pystr -> gmap pystr pystr -> outcome response * R;
  io_fault : gmap pystr node -> io_op -> option exn;
  dir_st_size : Z;
  os_getenv : pystr -> option pystr;
  unicode_lower : pystr -> pystr
}.
Arguments client_download_info {R} _ _ _.
Arguments client_fs_info {R} _ _ _.
Arguments iterdir {R} _ _ _.
Arguments session_stream {R} _ _ _ _.
Arguments io_fault {R} _ _ _.
Arguments dir_st_size {R} _.
Arguments os_getenv {R} _ _.
Arguments unicode_lower {R} _ _.

Record World (R : Type) := {
  files : gmap pystr node;
  remote : R;
  trace : list event
}.
Arguments files {R} _.
Arguments remote {R} _.
Arguments trace {R} _.

(** ** The monad of the script: state and exceptions *)

Definition M (R A : Type) : Type := World R -> outcome A * World R.

Definition ret {R A} (a : A) : M R A := fun w => (Returned a, w).

Definition raise {R A} (e : exn) : M R A := fun w => (Raised e, w).

Definition bind {R A B} (m : M R A) (k : A -> M R B) : M R B :=
  fun w =>
    match m w with
    | (Returned a, w') => k a w'
    | (Raised e, w') => (Raised e, w')
    end.

(** [try: m  except Exception as e: h e] *)
Definition try_except {R A} (m : M R A) (h : exn -> M R A) : M R A :=
  fun w =>
    match m w with
    | (Returned a, w') => (Returned a, w')
    | (Raised e, w') => h e w'
    end.

Declare Scope script_scope.
Delimit Scope script_scope with script.
Notation "x <- m ;; k" := (bind m (fun x => k))
  (at level 100, m at next level, right associativity) : script_scope.
Notation "m ;;; k" := (bind m (fun _ => k))
  (at level 100, right associativity) : script_scope.
Local Open Scope script_scope.

(** The walker recurses on the remote tree, whose depth the script does
    not know: its model takes fuel, and [None] is "out of fuel". *)
Definition MF (R A : Type) : Type := World R -> option (outcome A * World R).

Definition liftF {R A} (m : M R A) : MF R A := fun w => Some (m w).

Definition bindF {R A B} (m : MF R A) (k : A -> MF R B) : MF R B :=
  fun w =>
    match m w with
    | None => None
    | Some (Returned a, w') => k a w'
    | Some (Raised e, w') => Some (Raised e, w')
    end.

Definition try_exceptF {R A} (m : MF R A) (h : exn -> MF R A) : MF R A :=
  fun w =>
    match m w with
    | None => None
    | Some (Returned a, w') => Some (Returned a, w')
    | Some (Raised e, w') => h e w'
    end.

Notation "x <-- m ;; k" := (bindF m (fun x => k))
  (at level 100, m at next level, right associativity) : script_scope.

Section Script.

Context {R : Type} (E : Collab R).

Definition emit (e : event) (w : World R) : World R :=
  {| files := files w; remote := remote w; trace := trace w ++ [e] |}.

Definition set_files (fs : gmap pystr node) (w : World R) : World R :=
  {| files := fs; remote := remote w; trace := trace w |}.

Definition set_remote (r : R) (w : World R) : World R :=
  {| files := files w; remote := r; trace := trace w |}.

(** [logger.info], [logger.warning], [logger.error], [logger.critical] *)
Definition logger (lvl : level) (m : message) : M R unit :=
  fun w => (Returned tt, emit (Log lvl m) w).

(** [time.sleep] *)
Definition time_sleep (seconds : Z) : M R unit :=
  fun w => (Returned tt, emit (Sleep seconds) w).

(** A call of the remote side: it is recorded, then answered. *)
Definition call {A} (ev : event) (f : R -> outcome A * R) : M R A :=
  fun w =>
    let w1 := emit ev w in
    let (a, r) := f (remote w1) in
    (a, set_remote r w1).

Definition str_lower (s : pystr) : pystr :=
  if is_ascii s then List.map ascii_lower_char s else unicode_lower E s.

(** *** os and file objects *)

Definition os_path_exists (p : pystr) : M R bool :=
  fun w => (Returned (bool_decide (is_Some (files w !! p))), w).

Definition os_path_getsize (p : pystr) : M R Z :=
  fun w =>
    match files w !! p with
    | Some (File content) => (Returned (Z.of_nat (length content)), w)
    | Some Dir => (Returned (dir_st_size E), w)
    | None => (Raised (Exc "FileNotFoundError"), w)
    end.

(** The local conditions are asked first; an operation they let through
    then succeeds or fails by the state of the file system. *)
Definition io (op : io_op) : M R unit :=
  fun w =>
    match io_fault E (files w) op with
    | Some e => (Raised e, w)
    | None => (Returned tt, w)
    end.

(** [os.makedirs(name, exist_ok=True)] *)
Definition os_makedirs (name : pystr) : M R unit :=
  io (OpMakedirs name) ;;;
  fun w =>
    match name with
    | [] => (Raised (Exc "FileNotFoundError"), w)
    | _ =>
        match files w !! name with
        | Some (File _) => (Raised (Exc "FileExistsError"), w)
        | Some Dir => (Returned tt, w)
        | None => (Returned tt, set_files (<[name := Dir]> (files w)) w)
        end
    end.

(** [open(path, mode)]: the write modes truncate, the append mode keeps
    what is there. *)
Definition open_file (path : pystr) (mode : open_mode) : M R unit :=
  io (OpOpen path mode) ;;;
  fun w =>
    match files w !! path, mode with
    | Some Dir, _ => (Raised (Exc "IsADirectoryError"), w)
    | Some (File _), ModeAB => (Returned tt, w)
    | _, _ => (Returned tt, set_files (<[path := File []]> (files w)) w)
    end.

(** [f.write(data)] on the file opened at [path]. *)
Definition file_write (path : pystr) (data : list byte) : M R unit :=
  io (OpWrite path data) ;;;
  fun w =>
    match files w !! path with
    | Some (File content) =>
        (Returned tt, set_files (<[path := File (content ++ data)]> (files w)) w)
    | _ => (Raised (Exc "OSError"), w)
    end.

(** [f.write(text)] on a file opened with [encoding="utf-8"]. *)
Definition file_write_text (path : pystr) (text : pystr) : M R unit :=
  match utf8_encode text with
  | Some data => file_write path data
  | None => raise (Exc "UnicodeEncodeError")
  end.

(** [for chunk in response.iter_bytes(): f.write(chunk)] *)
Fixpoint write_chunks (path : pystr) (cs : list (list byte)) : M R unit :=
  match cs with
  | [] => ret tt
  | chunk :: cs' => file_write path chunk ;;; write_chunks path cs'
  end.

Definition raise_if (o : option exn) : M R unit :=
  match o with
  | Some e => raise e
  | None => ret tt
  end.

Definition lift_outcome {A} (o : outcome A) : M R A :=
  fun w => (o, w).

(** *** tenacity

    [wait_exponential(multiplier, min, max)] at the number of the attempt
    that failed (tenacity 8 and later: the exponent is the attempt number
    minus one, the base is 2, and the result is clamped to [min, max]). *)
Definition wait_exponential (multiplier min max : Z) (attempt_number : nat)
  : Z :=
  let exp := (2 ^ (Z.of_nat attempt_number - 1))%Z in
  let result := (multiplier * exp)%Z in
  Z.max (Z.max 0 min) (Z.min result max).

(** The loop of [@retry(stop=stop_after_attempt(n), wait=..., before_sleep=...)]
    from attempt [attempt_number] on, with [left] further attempts allowed.
    An attempt that raises is followed, when no attempt is left, by
    [RetryError]; otherwise by the [before_sleep] callback, the sleep and
    the next attempt. *)
Fixpoint retry_from {A} (left : nat) (attempt_number : nat)
  (wait : nat -> Z) (before_sleep : M R unit) (fn : M R A) : M R A :=
  try_except fn (fun e =>
    match left with
    | O => raise (RetryError e)
    | S left' =>
        before_sleep ;;;
        time_sleep (wait attempt_number) ;;;
        retry_from left' (S attempt_number) wait before_sleep fn
    end).

Definition retry {A} (stop_after_attempt : nat) (wait : nat -> Z)
  (before_sleep : M R unit) (fn : M R A) : M R A :=
  retry_from (stop_after_attempt - 1) 1 wait before_sleep fn.

(** *** download_file *)

Definition range_headers (local_size : Z) : gmap pystr pystr :=
  {[ lit "Range" := lit "bytes=" ++ str_int local_size ++ lit "-" ]}.

(** The function under the decorator: one attempt. *)
Definition download_file_body (it : item) (local_path : pystr) : M R bool :=
  try_except
    (url <- call (CallDownloadInfo it)
                 (fun r => client_download_info E r it) ;;
     os_makedirs (os_path_dirname local_path) ;;;
     e <- os_path_exists local_path ;;
     complete <-
       (if e then
          local_size <- os_path_getsize local_path ;;
          if (local_size =? Size it)%Z then
            logger INFO (MsgFileComplete local_path) ;;;
            ret true
          else
            logger INFO (MsgPartialFound local_path local_size (Size it)) ;;;
            ret false
        else ret false) ;;
     if complete then ret true
     else
       e' <- os_path_exists local_path ;;
       headers <-
         (if e' then
            local_size <- os_path_getsize local_path ;;
            ret (range_headers local_size)
          else ret (empty : gmap pystr pystr)) ;;
       resp <- call (HttpGet url headers)
                    (fun r => session_stream E r url headers) ;;
       raise_if (status_error resp) ;;;
       total_size <- lift_outcome (content_length_int resp) ;;
       let mode :=
         if bool_decide (headers = empty) then ModeWB else ModeAB in
       open_file local_path mode ;;;
       write_chunks local_path (chunks resp) ;;;
       raise_if (stream_error resp) ;;;
       logger INFO (MsgDownloadDone local_path) ;;;
       ret true)
    (fun e =>
       logger ERROR (MsgDownloadFailed local_path e) ;;;
       raise e).

Definition download_file (it : item) (local_path : pystr) : M R bool :=
  retry MAX_RETRIES (wait_exponential 1 2 10)
        (logger WARNING MsgRetrying)
        (download_file_body it local_path).

(** *** process_item *)

Definition env_truthy (v : option pystr) : bool :=
  match v with
  | Some (_ :: _) => true
  | _ => false
  end.

Definition required_fields : list pystr :=
  [lit "Etag"; lit "S3KeyFlag"; lit "Size"].

Definition has_key (data : gmap pystr pyval) (k : pystr) : bool :=
  bool_decide (is_Some (data !! k)).

(** The first required field that is in [data] under neither its
    lower-case nor its exact name. *)
Definition first_missing (data : gmap pystr pyval) : option pystr :=
  List.find
    (fun field => negb (has_key data (str_lower field))
                  && negb (has_key data field))
    required_fields.

(** [data.get(k)] and [data.get(k, d)] *)
Definition dict_get (data : gmap pystr pyval) (k : pystr) (d : pyval)
  : pyval :=
  match data !! k with
  | Some v => v
  | None => d
  end.

(** The line written to the pointer file. *)
Definition strm_url (it : item) (data : gmap pystr pyval) : pystr :=
  let etag :=
    py_or (dict_get data (lit "Etag") PNone)
          (dict_get data (lit "etag") (PStr [])) in
  let s3_key_flag :=
    py_or (dict_get data (lit "S3KeyFlag") PNone)
          (dict_get data (lit "s3keyflag") (PStr [])) in
  let size := py_or (dict_get data (lit "Size") PNone) (PInt (Size it)) in
  let raw_file_name := FileName it in
  let url :=
    DIRECT_LINK_SERVICE_URL ++ lit "/" ++ raw_file_name ++ lit "|"
    ++ py_str size ++ lit "|" ++ py_str etag in
  if truthy s3_key_flag
  then url ++ lit "?s3keyflag=" ++ py_str s3_key_flag
  else url.

Definition strm_path_of (it : item) (local_path : pystr) : pystr :=
  let base_name := fst (os_path_splitext (FileName it)) in
  let strm_filename := sanitize_filename base_name ++ lit ".strm" in
  os_path_join local_path strm_filename.

Definition sub_path_of (it : item) (local_path : pystr) : pystr :=
  let sub_filename := sanitize_filename (FileName it) in
  os_path_join local_path sub_filename.

(** [infoList[0]] *)
Definition first_info (info_list : list (gmap pystr pyval))
  : M R (gmap pystr pyval) :=
  match info_list with
  | data :: _ => ret data
  | [] => raise (Exc "IndexError")
  end.

(** The branch of [process_item] for a video name. *)
Definition generate_strm_file (it : item) (local_path : pystr)
  : M R (option bool) :=
  let strm_path := strm_path_of it local_path in
  e <- os_path_exists strm_path ;;
  if negb e || bool_decide (os_getenv E (lit "DEBUG") = Some (lit "1")) then
    let file_id := FileId it in
    info_list <- call (CallFsInfo file_id)
                      (fun r => client_fs_info E r file_id) ;;
    data <- first_info info_list ;;
    match first_missing data with
    | Some field =>
        logger ERROR (MsgMissingField (FileName it) field) ;;;
        ret (Some false)
    | None =>
        let url := strm_url it data in
        open_file strm_path ModeW ;;;
        file_write_text strm_path url ;;;
        logger INFO (MsgStrmGenerated strm_path) ;;;
        ret (Some true)
    end
  else ret (Some true).

(** The result is [Some true] for [True], [Some false] for [False] and
    [None] for [None] (no branch taken). *)
Definition process_item (it : item) (local_path : pystr)
  : M R (option bool) :=
  try_except
    (if negb (env_truthy (os_getenv E (lit "SYNC_SUBTITLE_ONLY")))
        && endswith (str_lower (FileName it)) VIDEO_EXTS
     then generate_strm_file it local_path
     else if endswith (str_lower (FileName it)) SUBTITLE_EXTS
     then
       b <- download_file it (sub_path_of it local_path) ;;
       ret (Some b)
     else ret None)
    (fun e =>
       logger ERROR (MsgProcessFailed (FileName it) e) ;;;
       ret (Some false)).

(** *** generate_strm *)

Definition result_truthy (r : option bool) : bool :=
  match r with
  | Some true => true
  | _ => false
  end.

(** The body of the [for item in items] loop; [recurse] is the recursive
    call of [generate_strm]. *)
Fixpoint walk_items (recurse : pystr -> Z -> MF R unit)
  (local_path : pystr) (items : list item) : MF R unit :=
  match items with
  | [] => liftF (ret tt)
  | it :: rest =>
      _ <-- liftF (logger INFO (MsgProcessing (FileName it))) ;;
      _ <-- (if negb (Type_ it =? 0)%Z then
               let dir_name := sanitize_filename (FileName it) in
               let new_local_path := os_path_join local_path dir_name in
               _ <-- liftF (os_makedirs new_local_path) ;;
               _ <-- recurse new_local_path (FileId it) ;;
               liftF (time_sleep REQUEST_DELAY)
             else
               r <-- liftF (process_item it local_path) ;;
               if result_truthy r
               then liftF (time_sleep REQUEST_DELAY)
               else liftF (ret tt)) ;;
      walk_items recurse local_path rest
  end.

Fixpoint generate_strm (fuel : nat) (local_path : pystr) (parent_id : Z)
  : MF R unit :=
  match fuel with
  | O => fun _ => None
  | S fuel' =>
      try_exceptF
        (_ <-- liftF (logger INFO (MsgDirStart parent_id)) ;;
         items <-- liftF (call (CallIterdir parent_id)
                               (fun r => iterdir E r parent_id)) ;;
         _ <-- liftF (time_sleep DIR_DELAY) ;;
         _ <-- walk_items (generate_strm fuel') local_path items ;;
         liftF (logger INFO (MsgDirDone parent_id)))
        (fun e =>
           _ <-- liftF (logger CRITICAL (MsgDirFailed parent_id e)) ;;
           liftF (raise e))
  end.

End Script.

(** ** Auxiliary predicates *)

(** A string that does not start with white space. *)
Definition head_not_space (s : pystr) : Prop :=
  match s with
  | [] => True
  | c :: _ => isspace c = false
  end.


(** A directory on which [os.makedirs(d, exist_ok=True)] has nothing to do
    and does not fail. *)
Definition dir_ready {R} (E : Collab R) (fs : gmap pystr node) (d : pystr)
  : Prop :=
  d <> [] /\ fs !! d = Some Dir /\ io_fault E fs (OpMakedirs d) = None.

(** Opening and writing the file at [path] meets no local fault. *)
Definition no_fault_on {R} (E : Collab R) (path : pystr) : Prop :=
  forall fs,
    (forall mode, io_fault E fs (OpOpen path mode) = None)
    /\ (forall data, io_fault E fs (OpWrite path data) = None).

(** The answer of a server that honors a request for the bytes from
    [start] on, of a file whose content is [remote_content]: the rest of
    the content when the range can be satisfied, and an error status (416)
    when it starts at or after the end. *)
Definition honors_range (remote_content : list byte) (start : Z)
  (resp : response) : Prop :=
  if (start <? Z.of_nat (length remote_content))%Z
  then status_error resp = None
       /\ stream_error resp = None
       /\ (exists n, content_length_int resp = Returned n)
       /\ concat (chunks resp) = drop (Z.to_nat start) remote_content
  else status_error resp <> None.

(** The video test and the subtitle test of [process_item]. *)
Definition is_video_name {R} (E : Collab R) (it : item) : bool :=
  endswith (str_lower E (FileName it)) VIDEO_EXTS.

Definition is_subtitle_name {R} (E : Collab R) (it : item) : bool :=
  endswith (str_lower E (FileName it)) SUBTITLE_EXTS.

Definition subtitle_only {R} (E : Collab R) : bool :=
  env_truthy (os_getenv E (lit "SYNC_SUBTITLE_ONLY")).

Definition force_regenerate {R} (E : Collab R) : bool :=
  bool_decide (os_getenv E (lit "DEBUG") = Some (lit "1")).

(** The seconds of the sleeps of a trace, in order. *)
Fixpoint sleeps_of (tr : list event) : list Z :=
  match tr with
  | [] => []
  | Sleep s :: tr' => s :: sleeps_of tr'
  | _ :: tr' => sleeps_of tr'
  end.

Fixpoint strictly_increasing (l : list Z) : Prop :=
  match l with
  | a :: ((b :: _) as l') => (a < b)%Z /\ strictly_increasing l'
  | _ => True
  end.

(** ** A small remote side, for examples

    One directory (id 1) holds [Movie.mkv], [Movie.srt] and [Movie.nfo].
    The subtitle has five bytes. The state of the remote side counts the
    calls it has answered. *)

Definition ex_mkv : item :=
  {| FileName := lit "Movie.mkv"; FileId := 2; Size := 1000; Type_ := 0 |}.
Definition ex_srt : item :=
  {| FileName := lit "Movie.srt"; FileId := 3; Size := 5; Type_ := 0 |}.
Definition ex_nfo : item :=
  {| FileName := lit "Movie.nfo"; FileId := 4; Size := 7; Type_ := 0 |}.

Definition ex_url : pystr := lit "http://cdn.example/3".

Definition ex_srt_bytes : list byte := [x31; x0a; x68; x69; x0a].

Definition ex_meta : gmap pystr pyval :=
  <[lit "Etag" := PStr (lit "9f2c")]>
    (<[lit "S3KeyFlag" := PStr (lit "1812-0")]>
       (<[lit "Size" := PInt 1000]> empty)).

(** The same metadata without the content hash. *)
Definition ex_meta_no_etag : gmap pystr pyval :=
  <[lit "S3KeyFlag" := PStr (lit "1812-0")]>
    (<[lit "Size" := PInt 1000]> empty).

Definition ex_response (body : list byte) : response :=
  {| status_error := None;
     content_length_int := Returned (Z.of_nat (length body));
     chunks := [body];
     stream_error := None |}.

Definition ex_response_416 : response :=
  {| status_error := Some (Exc "HTTPStatusError");
     content_length_int := Returned 0%Z;
     chunks := [];
     stream_error := None |}.

(** The server of the example answers a request without a range with the
    whole subtitle, a request for the bytes from 2 on with the last three,
    and a request for the bytes from 7 on with status 416. *)
Definition ex_stream (url : pystr) (headers : gmap pystr pystr)
  : outcome response :=
  if bool_decide (headers = empty) then Returned (ex_response ex_srt_bytes)
  else if bool_decide (headers = range_headers 2)
  then Returned (ex_response (drop 2 ex_srt_bytes))
  else Returned ex_response_416.

(** [online]: whether the client answers or raises. [meta]: the metadata
    the client returns. [env]: the process environment. *)
Definition ex_collab (online : bool) (meta : gmap pystr pyval)
  (env : pystr -> option pystr) : Collab nat :=
  {| client_download_info := fun r _ =>
       (if online then Returned ex_url else Raised (Exc "ConnectError"),
        S r);
     client_fs_info := fun r _ =>
       (if online then Returned [meta] else Raised (Exc "ConnectError"),
        S r);
     iterdir := fun r parent_id =>
       (if online then Returned [ex_mkv; ex_srt; ex_nfo]
        else Raised (Exc "ConnectError"), S r);
     session_stream := fun r url headers => (ex_stream url headers, S r);
     io_fault := fun _ _ => None;
     dir_st_size := 4096;
     os_getenv := env;
     unicode_lower := fun s => s |}.

Definition ex_env_none : pystr -> option pystr := fun _ => None.

Definition ex_env_subtitle_only : pystr -> option pystr :=
  fun k => if bool_decide (k = lit "SYNC_SUBTITLE_ONLY")
           then Some (lit "1") else None.

Definition ex_env_debug : pystr -> option pystr :=
  fun k => if bool_decide (k = lit "DEBUG") then Some (lit "1") else None.

Definition ex_world (fs : gmap pystr node) : World nat :=
  {| files := fs; remote := O; trace := [] |}.

Definition ex_lib : gmap pystr node := <[lit "/lib" := Dir]> empty.

(** The library directory with a subtitle file of the given content. *)
Definition ex_lib_with_srt (content : list byte) : gmap pystr node :=
  <[lit "/lib/Movie.srt" := File content]> ex_lib.

Definition ex_lib_with_strm : gmap pystr node :=
  <[lit "/lib/Movie.strm" := File [x6f; x6c; x64]]> ex_lib.

(** A subtitle file that is longer than the remote one. *)
Definition ex_srt_oversized : list byte := ex_srt_bytes ++ [x0a; x0a].

(** ** The format of the pointer file, in the words of the specification

    One line [<baseURL>/<rawFileName>|<size>|<contentHash>], with
    [?s3keyflag=<flag>] after it when there is a flag. *)
Definition pointer_line (raw_file_name : pystr) (size content_hash : pyval)
  (flag : option pyval) : pystr :=
  DIRECT_LINK_SERVICE_URL ++ lit "/" ++ raw_file_name ++ lit "|"
  ++ py_str size ++ lit "|" ++ py_str content_hash
  ++ match flag with
     | Some f => lit "?s3keyflag=" ++ py_str f
     | None => []
     end.

(** The value of a key of the metadata when it is there and not empty. *)
Definition present_value (data : gmap pystr pyval) (k : pystr)
  : option pyval :=
  match data !! k with
  | Some v => if truthy v then Some v else None
  | None => None
  end.

(** The storage key flag of the metadata: under its exact name, else under
    its lower-case name. *)
Definition present_flag (data : gmap pystr pyval) : option pyval :=
  match present_value data (lit "S3KeyFlag") with
  | Some v => Some v
  | None => present_value data (lit "s3keyflag")
  end.

(** The content hash and the size that the line shows. *)
Definition shown_etag (data : gmap pystr pyval) : pyval :=
  match present_value data (lit "Etag") with
  | Some v => v
  | None => dict_get data (lit "etag") (PStr [])
  end.

Definition shown_size (it : item) (data : gmap pystr pyval) : pyval :=
  match present_value data (lit "Size") with
  | Some v => v
  | None => PInt (Size it)
  end.

(** The metadata lacks a required field under both of its names. *)
Definition lacks_required (data : gmap pystr pyval) : Prop :=
  (data !! lit "Etag" = None /\ data !! lit "etag" = None)
  \/ (data !! lit "S3KeyFlag" = None /\ data !! lit "s3keyflag" = None)
  \/ (data !! lit "Size" = None /\ data !! lit "size" = None).

(** The handler of [process_item]'s [except] clause. *)
Definition process_item_failed {R} (it : item) (e : exn)
  : M R (option bool) :=
  logger ERROR (MsgProcessFailed (FileName it) e) ;;;
  ret (Some false).

(** The bytes of the pointer file of the example. *)
Definition ex_strm_bytes : list byte :=
  Eval vm_compute in
    match utf8_encode (strm_url ex_mkv ex_meta) with
    | Some b => b
    | None => []
    end.

(** The world in which the handler runs inside the loop: the walker has
    logged the name of the item. *)
Definition announced {R} (it : item) (w : World R) : World R :=
  emit (Log INFO (MsgProcessing (FileName it))) w.

(** The world after the metadata call and the error about [field]. *)
Definition after_missing {R} (it : item) (field : pystr) (r1 : R)
  (w : World R) : World R :=
  {| files := files w;
     remote := r1;
     trace := trace w
              ++ [CallFsInfo (FileId it);
                  Log ERROR (MsgMissingField (FileName it) field)] |}.

(** The recursive call of the examples: no directory is entered. *)
Definition ex_recurse : pystr -> Z -> MF nat unit :=
  fun _ _ => liftF (ret tt).

(** The world after one run of the walker over the example, and the world
    in which a second run starts: the same files, a new trace. *)
Definition ex_first_run : World nat :=
  match generate_strm (ex_collab true ex_meta ex_env_none) 1 (lit "/lib") 1
          (ex_world ex_lib) with
  | Some (_, w) => w
  | None => ex_world ex_lib
  end.

Definition ex_second_start : World nat :=
  {| files := files ex_first_run; remote := remote ex_first_run;
     trace := [] |}.

(** ** Further predicates and examples *)

(** A name that the sanitizer has nothing to do on. *)
Definition clean_name (s : pystr) : Prop :=
  Forall (fun c => ~ In c reserved_chars) s
  /\ strip s = s
  /\ (length s <= 200)%nat.

(** A path made of [local_path] and one more segment, with at most one
    separator in between and none in the segment. *)
Definition one_below (local_path path : pystr) : Prop :=
  exists seg,
    Forall (fun c => c <> sep) seg
    /\ (path = local_path ++ seg \/ path = local_path ++ sep :: seg).

(** What [os.path.join] puts between a directory and a relative name. *)
Definition joiner (a : pystr) : pystr :=
  if (match a with [] => true | _ => false end) || endswith1 a [sep]
  then [] else [sep].

(** [fs'] has kept what [fs] has: a directory is still a directory, and a
    file still starts with the bytes it had. *)
Definition extends_files (fs fs' : gmap pystr node) : Prop :=
  forall q,
    match fs !! q with
    | Some (File c) => exists extra, fs' !! q = Some (File (c ++ extra))
    | Some Dir => fs' !! q = Some Dir
    | None => True
    end.

(** [fs'] has an entry of the same kind wherever [fs] has one. *)
Definition keeps_entries (fs fs' : gmap pystr node) : Prop :=
  forall q,
    match fs !! q with
    | Some (File _) => exists c', fs' !! q = Some (File c')
    | Some Dir => fs' !! q = Some Dir
    | None => True
    end.

(** The outcome and the final world of a run of [m] from [w] satisfy
    [Q]. *)
Definition wp {R A} (m : M R A) (w : World R)
  (Q : outcome A -> World R -> Prop) : Prop :=
  Q (fst (m w)) (snd (m w)).

(** A response that breaks after the first two bytes of the subtitle. *)
Definition ex_broken_response : response :=
  {| status_error := None;
     content_length_int := Returned 5%Z;
     chunks := [take 2 ex_srt_bytes];
     stream_error := Some (Exc "ReadError") |}.

(** The remote side of the example with a stream that breaks on the
    request without a range. *)
Definition ex_collab_flaky : Collab nat :=
  {| client_download_info :=
       client_download_info (ex_collab true ex_meta ex_env_none);
     client_fs_info := client_fs_info (ex_collab true ex_meta ex_env_none);
     iterdir := iterdir (ex_collab true ex_meta ex_env_none);
     session_stream := fun r url headers =>
       (if bool_decide (headers = empty) then Returned ex_broken_response
        else ex_stream url headers, S r);
     io_fault := fun _ _ => None;
     dir_st_size := 4096;
     os_getenv := ex_env_none;
     unicode_lower := fun s => s |}.

(** Two videos with one base name. *)
Definition ex_mp4 : item :=
  {| FileName := lit "Movie.mp4"; FileId := 6; Size := 900; Type_ := 0 |}.

(** The remote side of the example on a disk that takes no more bytes:
    files can be opened, a write of at least one byte fails. *)
Definition ex_collab_full_disk : Collab nat :=
  {| client_download_info :=
       client_download_info (ex_collab true ex_meta ex_env_none);
     client_fs_info := client_fs_info (ex_collab true ex_meta ex_env_none);
     iterdir := iterdir (ex_collab true ex_meta ex_env_none);
     session_stream := session_stream (ex_collab true ex_meta ex_env_none);
     io_fault := fun _ op =>
       match op with
       | OpWrite _ (_ :: _) => Some (Exc "OSError")
       | _ => None
       end;
     dir_st_size := 4096;
     os_getenv := ex_env_none;
     unicode_lower := fun s => s |}.

(** The keys of the metadata that the pointer line reads. *)
Definition line_keys : list pystr :=
  [lit "Etag"; lit "etag"; lit "S3KeyFlag"; lit "s3keyflag"; lit "Size"].

(** The files after [os.makedirs(d, exist_ok=True)] has returned. *)
Definition made (fs : gmap pystr node) (d : pystr) : gmap pystr node :=
  match fs !! d with
  | None => <[d := Dir]> fs
  | Some _ => fs
  end.

(** The world in which the loop of [generate_strm] starts: the start is
    logged, the listing has been asked for and has left the remote side in
    [r1], and the pause after the listing is over. *)
Definition listed {R} (parent_id : Z) (r1 : R) (w : World R) : World R :=
  emit (Sleep DIR_DELAY)
    (set_remote r1
       (emit (CallIterdir parent_id)
          (emit (Log INFO (MsgDirStart parent_id)) w))).

(** The local path of the sub-directory of an item. *)
Definition new_local_path_of (it : item) (local_path : pystr) : pystr :=
  os_path_join local_path (sanitize_filename (FileName it)).

(** A remote tree with a sub-directory: the root (id 1) holds the
    directory [Season 1] (id 5) and the subtitle; the directory holds one
    episode. [sub_ok] tells whether the listing of the sub-directory
    answers. *)
Definition ex_season : item :=
  {| FileName := lit "Season 1"; FileId := 5; Size := 0; Type_ := 1 |}.

Definition ex_episode : item :=
  {| FileName := lit "E01.mkv"; FileId := 7; Size := 1000; Type_ := 0 |}.

Definition ex_collab_tree (sub_ok : bool) : Collab nat :=
  {| client_download_info :=
       client_download_info (ex_collab true ex_meta ex_env_none);
     client_fs_info := client_fs_info (ex_collab true ex_meta ex_env_none);
     iterdir := fun r parent_id =>
       (if (parent_id =? 1)%Z then Returned [ex_season; ex_srt]
        else if sub_ok then Returned [ex_episode]
        else Raised (Exc "ConnectError"), S r);
     session_stream := session_stream (ex_collab true ex_meta ex_env_none);
     io_fault := fun _ _ => None;
     dir_st_size := 4096;
     os_getenv := ex_env_none;
     unicode_lower := fun s => s |}.

(** A run of [m] keeps the entries of the file system, from any world. *)
Definition m_keeps {R A} (m : M R A) : Prop :=
  forall w, keeps_entries (files w) (files (snd (m w))).

Definition mf_keeps {R A} (m : MF R A) : Prop :=
  forall w o w', m w = Some (o, w') -> keeps_entries (files w) (files w').

(** Every result of [f] is a result of [g]. *)
Definition below {R A} (f g : MF R A) : Prop :=
  forall w r, f w = Some r -> g w = Some r.

(** The library of the example with a regular file where the directory of
    the season would go. *)
Definition ex_lib_with_season_file : gmap pystr node :=
  <[lit "/lib/Season 1" := File []]> ex_lib.

(** ** The line of the pointer file, read from outside

    The characters at which [str.splitlines] ends a line. *)
Definition is_line_break (c : N) : bool :=
  ((10 <=? c) && (c <=? 13)) || ((28 <=? c) && (c <=? 30))
  || (c =? 133) || (c =? 8232) || (c =? 8233).

(** A text that is one line: it holds no line break. *)
Definition single_line (s : pystr) : Prop :=
  Forall (fun c => is_line_break c = false) s.

(** The string values of the metadata are one line each. *)
Definition values_single_line (data : gmap pystr pyval) : Prop :=
  forall k s, data !! k = Some (PStr s) -> single_line s.

(** The integer that a decimal numeral stands for, by the reader of the
    standard library. *)
Definition read_decimal (s : pystr) : option Z :=
  option_map Z.of_int
    (NilEmpty.int_of_string (string_of_list_ascii (List.map ascii_of_N s))).

(** The pointer file of the example, written out. *)
Definition ex_strm_literal : list byte :=
  list_byte_of_string
    "http://172.17.0.1:8123/Movie.mkv|1000|9f2c?s3keyflag=1812-0".

(** ** Names and extensions

    A name that ends in one of the extensions of a set. *)
Definition has_extension (exts : list pystr) (name : pystr) : Prop :=
  exists stem ext, In ext exts /\ name = stem ++ ext.

(** Lower-casing keeps a declared extension at the end of a name. Python's
    [str.lower] does: the extensions are ASCII letters in lower case,
    digits and dots, which it leaves as they are. *)
Definition lower_keeps_extensions {R} (E : Collab R) : Prop :=
  forall stem ext,
    In ext (VIDEO_EXTS ++ SUBTITLE_EXTS) ->
    exists stem', unicode_lower E (stem ++ ext) = stem' ++ ext.

(** The loop of the walker over the subtitle and the ignored file of the
    example, with the remote side out of reach. *)
Definition ex_offline_loop : option (outcome unit * World nat) :=
  walk_items (ex_collab false ex_meta ex_env_none) ex_recurse (lit "/lib")
    [ex_srt; ex_nfo] (ex_world ex_lib).

From Stdlib Require Import DecimalZ.

(** A video whose name is not ASCII. *)
Definition ex_cjk : item :=
  {| FileName := [30005; 24433] ++ lit ".mkv"; FileId := 8; Size := 1;
     Type_ := 0 |}.
(** ** Examples *)

Example sanitize_filename_example :
  sanitize_filename (lit "  Show: S01/E02 <final>?  ")
  = lit "Show_ S01_E02 _final__".
Proof. vm_compute. reflexivity. Qed.

Example os_path_splitext_example :
  os_path_splitext (lit "Movie.2020.mkv") = (lit "Movie.2020", lit ".mkv")
  /\ os_path_splitext (lit ".hidden") = (lit ".hidden", []).
Proof. split; vm_compute; reflexivity. Qed.

Example os_path_join_example :
  os_path_join (lit "/lib") (lit "Movie.strm") = lit "/lib/Movie.strm"
  /\ os_path_join (lit "/lib/") (lit "Movie.strm") = lit "/lib/Movie.strm".
Proof. split; vm_compute; reflexivity. Qed.

Example os_path_dirname_example :
  os_path_dirname (lit "/lib/Movie.srt") = lit "/lib"
  /\ os_path_dirname (lit "Movie.srt") = [].
Proof. split; vm_compute; reflexivity. Qed.

Example wait_exponential_example :
  List.map (wait_exponential 1 2 10) [1; 2; 3; 4; 5; 6]%nat
  = [2; 2; 4; 8; 10; 10]%Z.
Proof. reflexivity. Qed.

Example upper_case_extension_example :
  is_video_name (ex_collab true ex_meta ex_env_none)
    {| FileName := lit "MOVIE.MKV"; FileId := 9; Size := 1; Type_ := 0 |}
  = true.
Proof. vm_compute. reflexivity. Qed.

(** The example of the specification: one run over the directory writes
    the pointer file of the video and the five bytes of the subtitle, and
    sleeps after the listing and after each of the two. *)
Example first_run_example :
  generate_strm (ex_collab true ex_meta ex_env_none) 1 (lit "/lib") 1
    (ex_world ex_lib)
  = Some (Returned tt, ex_first_run)
  /\ files ex_first_run !! lit "/lib/Movie.strm" = Some (File ex_strm_bytes)
  /\ files ex_first_run !! lit "/lib/Movie.srt" = Some (File ex_srt_bytes)
  /\ files ex_first_run !! lit "/lib/Movie.nfo" = None
  /\ sleeps_of (trace ex_first_run) = [2; 1; 1]%Z
  /\ List.filter is_network_call (trace ex_first_run)
     = [CallIterdir 1; CallFsInfo 2; CallDownloadInfo ex_srt;
        HttpGet ex_url empty].
Proof.
  split; [vm_compute; reflexivity|]. split; [vm_compute; reflexivity|].
  split; [vm_compute; reflexivity|]. split; [vm_compute; reflexivity|].
  split; vm_compute; reflexivity.
Qed.

(** A second run over the same remote tree leaves the files as they are;
    its network calls are the listing and the URL resolution of the
    subtitle. *)
Example second_run_example :
  exists w',
    generate_strm (ex_collab true ex_meta ex_env_none) 1 (lit "/lib") 1
      ex_second_start
    = Some (Returned tt, w')
    /\ files w' = files ex_first_run
    /\ List.filter is_network_call (trace w')
       = [CallIterdir 1; CallDownloadInfo ex_srt].
Proof.
  eexists. split; [vm_compute; reflexivity|].
  split; vm_compute; reflexivity.
Qed.

(** The other example of the specification: the metadata of the video
    lacks the content hash. No pointer file is created, the failure is
    logged, and the subtitle is still downloaded. *)
Example missing_hash_example :
  exists w',
    generate_strm (ex_collab true ex_meta_no_etag ex_env_none) 1
      (lit "/lib") 1 (ex_world ex_lib)
    = Some (Returned tt, w')
    /\ files w' !! lit "/lib/Movie.strm" = None
    /\ files w' !! lit "/lib/Movie.srt" = Some (File ex_srt_bytes)
    /\ In (Log ERROR (MsgMissingField (lit "Movie.mkv") (lit "Etag")))
         (trace w').
Proof.
  eexists. split; [vm_compute; reflexivity|].
  split; [vm_compute; reflexivity|]. split; [vm_compute; reflexivity|].
  simpl. tauto.
Qed.

(** ** Properties of the sanitizer *)

Lemma Forall_lstrip_with (P : N -> Prop) f s :
  Forall P s -> Forall P (lstrip_with f s).
Proof.
  induction 1 as [|c s Hc Hs IH]; simpl; [constructor|].
  destruct (f c); [exact IH | constructor; assumption].
Qed.

Lemma Forall_rstrip_with (P : N -> Prop) f s :
  Forall P s -> Forall P (rstrip_with f s).
Proof.
  induction 1 as [|c s Hc Hs IH]; simpl; [constructor|].
  destruct (rstrip_with f s) as [|d r].
  - destruct (f c); constructor; [assumption | constructor].
  - constructor; assumption.
Qed.

Lemma length_lstrip_with f s : (length (lstrip_with f s) <= length s)%nat.
Proof.
  induction s as [|c s IH]; simpl; [lia|].
  destruct (f c); simpl; lia.
Qed.

Lemma length_rstrip_with f s : (length (rstrip_with f s) <= length s)%nat.
Proof.
  induction s as [|c s IH]; simpl; [lia|].
  destruct (rstrip_with f s) as [|d r].
  - destruct (f c); simpl; lia.
  - simpl in *; lia.
Qed.

Lemma lstrip_head_not_space s : head_not_space (lstrip_with isspace s).
Proof.
  induction s as [|c s IH]; simpl; [exact I|].
  destruct (isspace c) eqn:Hc; [exact IH | exact Hc].
Qed.

Lemma rstrip_head_not_space s :
  head_not_space s -> head_not_space (rstrip_with isspace s).
Proof.
  destruct s as [|c s]; simpl; [trivial|]. intros Hc.
  destruct (rstrip_with isspace s); [rewrite Hc|]; exact Hc.
Qed.

Lemma take_head_not_space n s :
  head_not_space s -> head_not_space (take n s).
Proof. destruct n, s; simpl; trivial. Qed.

Lemma lstrip_fixed s : head_not_space s -> lstrip_with isspace s = s.
Proof. destruct s as [|c s]; simpl; [trivial|]. intros ->. reflexivity. Qed.

Lemma rstrip_with_idem f s :
  rstrip_with f (rstrip_with f s) = rstrip_with f s.
Proof.
  induction s as [|c s IH]; simpl; [reflexivity|].
  destruct (rstrip_with f s) as [|d r] eqn:Hr.
  - destruct (f c) eqn:Hc; simpl; [reflexivity | rewrite Hc; reflexivity].
  - change (rstrip_with f (c :: d :: r)) with
      (match rstrip_with f (d :: r) with
       | [] => if f c then [] else [c]
       | r' => c :: r'
       end).
    rewrite IH. reflexivity.
Qed.

Lemma is_reserved_underscore : is_reserved underscore = false.
Proof. reflexivity. Qed.

Lemma re_sub_not_reserved s :
  Forall (fun c => is_reserved c = false) (re_sub_reserved s).
Proof.
  induction s as [|c s IH]; simpl; constructor; [|exact IH].
  destruct (is_reserved c) eqn:Hc; [apply is_reserved_underscore | exact Hc].
Qed.

Lemma re_sub_fixed s :
  Forall (fun c => is_reserved c = false) s -> re_sub_reserved s = s.
Proof.
  induction 1 as [|c s Hc Hs IH]; simpl; [reflexivity|].
  rewrite Hc. f_equal. exact IH.
Qed.

Lemma sanitize_not_reserved s :
  Forall (fun c => is_reserved c = false) (sanitize_filename s).
Proof.
  unfold sanitize_filename, strip. apply Forall_take.
  apply Forall_rstrip_with, Forall_lstrip_with, re_sub_not_reserved.
Qed.

Lemma sanitize_length s : (length (sanitize_filename s) <= 200)%nat.
Proof. unfold sanitize_filename. rewrite length_take. lia. Qed.

Lemma sanitize_head_not_space s : head_not_space (sanitize_filename s).
Proof.
  unfold sanitize_filename, strip.
  apply take_head_not_space, rstrip_head_not_space, lstrip_head_not_space.
Qed.

(** Sanitizing a sanitized name only strips white space from its end. *)
Lemma sanitize_twice s :
  sanitize_filename (sanitize_filename s)
  = rstrip_with isspace (sanitize_filename s).
Proof.
  set (t := sanitize_filename s).
  unfold sanitize_filename at 1. unfold strip.
  rewrite (re_sub_fixed t) by apply sanitize_not_reserved.
  rewrite (lstrip_fixed t) by apply sanitize_head_not_space.
  apply take_ge.
  pose proof (length_rstrip_with isspace t).
  pose proof (sanitize_length s). fold t in H0. lia.
Qed.

(** No path separator is left in a sanitized name. *)
Lemma sanitize_no_sep s : Forall (fun c => c <> sep) (sanitize_filename s).
Proof.
  eapply Forall_impl; [apply sanitize_not_reserved|].
  intros c Hc ->. discriminate Hc.
Qed.

(** C2 (as stated it fails): a name of 199 letters, a space and one more
    letter is cut after the space, and sanitizing the result again strips
    that space: the output of the sanitizer is not a fixed point. *)
Lemma sanitize_filename_not_fixed_point :
  sanitize_filename (sanitize_filename (replicate 199 97 ++ lit " b"))
  <> sanitize_filename (replicate 199 97 ++ lit " b").
Proof.
  intros H. apply (f_equal length) in H. vm_compute in H. discriminate H.
Qed.

(** C2 (amended): for every input string the output of the sanitizer
    contains none of the reserved characters and has length at most 200;
    sanitizing the output again only strips white space from its end, so
    the output is a fixed point whenever the trimmed name has at most 200
    characters, and the output of the second application is always a
    fixed point. *)
Theorem sanitize_filename_spec (s : pystr) :
  (forall c, In c (sanitize_filename s) -> ~ In c reserved_chars)
  /\ (length (sanitize_filename s) <= 200)%nat
  /\ sanitize_filename (sanitize_filename s)
     = rstrip_with isspace (sanitize_filename s)
  /\ ((length (strip (re_sub_reserved s)) <= 200)%nat ->
      sanitize_filename (sanitize_filename s) = sanitize_filename s)
  /\ sanitize_filename (sanitize_filename (sanitize_filename s))
     = sanitize_filename (sanitize_filename s).
Proof.
  repeat split.
  - intros c Hc Hr.
    pose proof (sanitize_not_reserved s) as HF.
    rewrite List.Forall_forall in HF. specialize (HF c Hc).
    unfold is_reserved in HF.
    assert (existsb (N.eqb c) reserved_chars = true) as Ht.
    { apply existsb_exists. exists c. split; [exact Hr | apply N.eqb_refl]. }
    congruence.
  - apply sanitize_length.
  - apply sanitize_twice.
  - intros Hlen. rewrite sanitize_twice.
    unfold sanitize_filename. rewrite (take_ge _ 200) by exact Hlen.
    unfold strip. apply rstrip_with_idem.
  - rewrite (sanitize_twice (sanitize_filename s)).
    rewrite (sanitize_twice s). apply rstrip_with_idem.
Qed.

Lemma sanitize_filename_spec_witness :
  sanitize_filename (sanitize_filename (lit " a/b: c? "))
  = sanitize_filename (lit " a/b: c? ").
Proof.
  apply (proj1 (proj2 (proj2 (proj2
           (sanitize_filename_spec (lit " a/b: c? ")))))).
  vm_compute. lia.
Defined.

(** ** Properties of the operations on the file system *)

Section OsFacts.

Context {R : Type} (E : Collab R).

Lemma os_makedirs_ready d (w : World R) :
  dir_ready E (files w) d -> os_makedirs E d w = (Returned tt, w).
Proof.
  intros (Hne & Hd & Hf). unfold os_makedirs, bind, io.
  rewrite Hf. destruct d as [|c d]; [contradiction|]. rewrite Hd.
  reflexivity.
Qed.

Lemma os_path_exists_file p content (w : World R) :
  files w !! p = Some (File content) ->
  os_path_exists p w = (Returned true, w).
Proof.
  intros H. unfold os_path_exists. rewrite H.
  rewrite bool_decide_eq_true_2 by eauto. reflexivity.
Qed.

Lemma os_path_exists_none p (w : World R) :
  files w !! p = None -> os_path_exists p w = (Returned false, w).
Proof.
  intros H. unfold os_path_exists. rewrite H.
  rewrite bool_decide_eq_false_2; [reflexivity|].
  intros [x Hx]. discriminate Hx.
Qed.

Lemma os_path_getsize_file p content (w : World R) :
  files w !! p = Some (File content) ->
  os_path_getsize E p w = (Returned (Z.of_nat (length content)), w).
Proof. intros H. unfold os_path_getsize. rewrite H. reflexivity. Qed.

(** Writing the chunks of a body appends their concatenation. *)
Lemma write_chunks_appends p cs : forall (w : World R) content,
  files w !! p = Some (File content) ->
  (forall fs data, io_fault E fs (OpWrite p data) = None) ->
  write_chunks E p cs w
  = (Returned tt,
     set_files (<[p := File (content ++ concat cs)]> (files w)) w).
Proof.
  induction cs as [|c cs IH]; intros w content Hp Hf; simpl.
  - rewrite app_nil_r. rewrite insert_id by exact Hp.
    destruct w; reflexivity.
  - unfold bind at 1. unfold file_write, bind, io. rewrite Hf, Hp.
    rewrite (IH _ (content ++ c)).
    + simpl. rewrite insert_insert_eq. rewrite <- app_assoc. reflexivity.
    + simpl. apply lookup_insert_eq.
    + exact Hf.
Qed.

(** A call that returns passes through the retry loop unchanged. *)
Lemma retry_returns {A} n wait before_sleep (fn : M R A) w a w' :
  fn w = (Returned a, w') ->
  retry n wait before_sleep fn w = (Returned a, w').
Proof.
  intros H. unfold retry.
  destruct (n - 1)%nat; simpl; unfold try_except; rewrite H; reflexivity.
Qed.

End OsFacts.

(** ** The downloader *)

Section DownloadFacts.

Context {R : Type} (E : Collab R).

Lemma download_file_body_complete it p (w : World R) content url r' :
  files w !! p = Some (File content) ->
  Z.of_nat (length content) = Size it ->
  dir_ready E (files w) (os_path_dirname p) ->
  client_download_info E (remote w) it = (Returned url, r') ->
  download_file_body E it p w
  = (Returned true,
     {| files := files w; remote := r';
        trace := trace w
                 ++ [CallDownloadInfo it; Log INFO (MsgFileComplete p)] |}).
Proof.
  intros Hp Hlen Hdir Hinfo.
  unfold download_file_body, try_except.
  unfold bind at 1. unfold call. simpl. rewrite Hinfo.
  unfold bind at 1. rewrite os_makedirs_ready by exact Hdir.
  unfold bind at 1. rewrite (os_path_exists_file p content) by exact Hp.
  unfold bind at 1. unfold bind at 1.
  rewrite (os_path_getsize_file E p content) by exact Hp.
  rewrite Hlen, Z.eqb_refl.
  unfold bind, logger, ret, emit, set_remote. simpl.
  rewrite <- app_assoc. reflexivity.
Qed.

Lemma range_headers_not_empty n :
  bool_decide (range_headers n = empty) = false.
Proof.
  apply bool_decide_eq_false_2. unfold range_headers.
  apply map_non_empty_singleton.
Qed.

(** One attempt over a partial file: a range request from its length on,
    and the body appended. *)
Lemma download_file_body_resume it p (w : World R) old url r1 resp r2 n :
  files w !! p = Some (File old) ->
  Z.of_nat (length old) <> Size it ->
  dir_ready E (files w) (os_path_dirname p) ->
  client_download_info E (remote w) it = (Returned url, r1) ->
  session_stream E r1 url (range_headers (Z.of_nat (length old)))
  = (Returned resp, r2) ->
  status_error resp = None ->
  content_length_int resp = Returned n ->
  stream_error resp = None ->
  no_fault_on E p ->
  download_file_body E it p w
  = (Returned true,
     {| files := <[p := File (old ++ concat (chunks resp))]> (files w);
        remote := r2;
        trace := trace w
                 ++ [CallDownloadInfo it;
                     Log INFO (MsgPartialFound p (Z.of_nat (length old))
                                               (Size it));
                     HttpGet url (range_headers (Z.of_nat (length old)));
                     Log INFO (MsgDownloadDone p)] |}).
Proof.
  intros Hp Hlen Hdir Hinfo Hget Hst Hcl Hse Hnf.
  unfold download_file_body, try_except.
  unfold bind at 1. unfold call. simpl. rewrite Hinfo.
  unfold bind at 1. rewrite os_makedirs_ready by exact Hdir.
  unfold bind at 1. rewrite (os_path_exists_file p old) by exact Hp.
  unfold bind at 1. unfold bind at 1.
  rewrite (os_path_getsize_file E p old) by exact Hp.
  rewrite (proj2 (Z.eqb_neq _ _) Hlen).
  unfold bind at 1. unfold logger at 1. unfold ret at 1.
  unfold bind at 1. rewrite (os_path_exists_file p old) by exact Hp.
  unfold bind at 1. unfold bind at 1.
  rewrite (os_path_getsize_file E p old) by exact Hp.
  unfold ret at 1. unfold bind at 1. unfold call. simpl. rewrite Hget.
  unfold bind at 1. rewrite Hst. unfold raise_if at 1, ret at 1.
  unfold bind at 1. rewrite Hcl. unfold lift_outcome at 1.
  rewrite range_headers_not_empty.
  unfold bind at 1. unfold open_file, bind, io. simpl.
  rewrite (proj1 (Hnf _)). simpl. rewrite Hp.
  erewrite write_chunks_appends;
    [ | simpl; exact Hp | intros fs data; apply (proj2 (Hnf fs))].
  rewrite Hse. unfold raise_if, ret, logger, emit, set_files, set_remote.
  simpl. repeat rewrite <- app_assoc. reflexivity.
Qed.

(** One attempt with no local file: a request without a range, and the
    body written to a new file. *)
Lemma download_file_body_fresh it p (w : World R) url r1 resp r2 n :
  files w !! p = None ->
  dir_ready E (files w) (os_path_dirname p) ->
  client_download_info E (remote w) it = (Returned url, r1) ->
  session_stream E r1 url empty = (Returned resp, r2) ->
  status_error resp = None ->
  content_length_int resp = Returned n ->
  stream_error resp = None ->
  no_fault_on E p ->
  download_file_body E it p w
  = (Returned true,
     {| files := <[p := File (concat (chunks resp))]> (files w);
        remote := r2;
        trace := trace w
                 ++ [CallDownloadInfo it;
                     HttpGet url empty;
                     Log INFO (MsgDownloadDone p)] |}).
Proof.
  intros Hp Hdir Hinfo Hget Hst Hcl Hse Hnf.
  unfold download_file_body, try_except.
  unfold bind at 1. unfold call. simpl. rewrite Hinfo.
  unfold bind at 1. rewrite os_makedirs_ready by exact Hdir.
  unfold bind at 1. rewrite (os_path_exists_none p) by exact Hp.
  unfold bind at 1. unfold ret at 1.
  unfold bind at 1. rewrite (os_path_exists_none p) by exact Hp.
  unfold bind at 1. unfold ret at 1.
  unfold bind at 1. unfold call. simpl. rewrite Hget.
  unfold bind at 1. rewrite Hst. unfold raise_if at 1, ret at 1.
  unfold bind at 1. rewrite Hcl. unfold lift_outcome at 1.
  rewrite bool_decide_eq_true_2 by reflexivity.
  unfold bind at 1. unfold open_file, bind, io. simpl.
  rewrite (proj1 (Hnf _)). simpl. rewrite Hp.
  erewrite write_chunks_appends with (content := []);
    [ | simpl; apply lookup_insert_eq | intros fs data; apply (proj2 (Hnf fs))].
  rewrite Hse. unfold raise_if, ret, logger, emit, set_files, set_remote.
  simpl. rewrite insert_insert_eq.
  repeat rewrite <- app_assoc. reflexivity.
Qed.

End DownloadFacts.

(** C1 (as stated it fails): the subtitle of the example is on disk with
    all of its five bytes, and the downloader still asks the remote side
    for the download URL before it looks at the file: its trace has one
    network call, the URL resolution. *)
Lemma download_file_complete_still_resolves_url :
  files (ex_world (ex_lib_with_srt ex_srt_bytes)) !! lit "/lib/Movie.srt"
  = Some (File ex_srt_bytes)
  /\ Z.of_nat (length ex_srt_bytes) = Size ex_srt
  /\ fst (download_file (ex_collab true ex_meta ex_env_none) ex_srt
            (lit "/lib/Movie.srt") (ex_world (ex_lib_with_srt ex_srt_bytes)))
     = Returned true
  /\ List.filter is_network_call
       (trace (snd (download_file (ex_collab true ex_meta ex_env_none)
                      ex_srt (lit "/lib/Movie.srt")
                      (ex_world (ex_lib_with_srt ex_srt_bytes)))))
     = [CallDownloadInfo ex_srt].
Proof. vm_compute. repeat split; reflexivity. Qed.

(** C1 (amended): when a local file exists at the target path (in its
    directory) with exactly the declared size, the downloader resolves the
    download URL, and when that call returns it reports success with no
    GET and no write: the URL resolution is its only network call. A
    second run does the same again: one URL resolution, no GET, the files
    unchanged. *)
Theorem download_file_complete {R} (E : Collab R) it p (w : World R)
  content url r' :
  files w !! p = Some (File content) ->
  Z.of_nat (length content) = Size it ->
  dir_ready E (files w) (os_path_dirname p) ->
  client_download_info E (remote w) it = (Returned url, r') ->
  let w' := {| files := files w; remote := r';
               trace := trace w ++ [CallDownloadInfo it;
                                    Log INFO (MsgFileComplete p)] |} in
  download_file E it p w = (Returned true, w')
  /\ forall url2 r2,
       client_download_info E r' it = (Returned url2, r2) ->
       download_file E it p w'
       = (Returned true,
          {| files := files w; remote := r2;
             trace := trace w' ++ [CallDownloadInfo it;
                                   Log INFO (MsgFileComplete p)] |}).
Proof.
  intros Hp Hlen Hdir Hinfo w'. split.
  - apply retry_returns.
    apply (download_file_body_complete E it p w content url r'); assumption.
  - intros url2 r2 Hinfo2. apply retry_returns.
    apply (download_file_body_complete E it p w' content url2 r2);
      assumption.
Qed.

Lemma download_file_complete_witness :
  download_file (ex_collab true ex_meta ex_env_none) ex_srt
    (lit "/lib/Movie.srt") (ex_world (ex_lib_with_srt ex_srt_bytes))
  = (Returned true,
     {| files := ex_lib_with_srt ex_srt_bytes; remote := 1%nat;
        trace := [CallDownloadInfo ex_srt;
                  Log INFO (MsgFileComplete (lit "/lib/Movie.srt"))] |}).
Proof.
  apply (download_file_complete (ex_collab true ex_meta ex_env_none) ex_srt
           (lit "/lib/Movie.srt") (ex_world (ex_lib_with_srt ex_srt_bytes))
           ex_srt_bytes ex_url 1%nat).
  - reflexivity.
  - reflexivity.
  - split; [vm_compute; discriminate | split; reflexivity].
  - reflexivity.
Defined.

(** C3 (as stated it fails): a local file of seven bytes against a
    declared size of five. The downloader asks for the bytes from 7 on; a
    server that honors ranges answers 416, every attempt raises, and the
    file keeps its seven bytes: its final length is not the declared
    size. *)
Lemma download_file_oversized_never_completes :
  files (ex_world (ex_lib_with_srt ex_srt_oversized)) !! lit "/lib/Movie.srt"
  = Some (File ex_srt_oversized)
  /\ (0 < Z.of_nat (length ex_srt_oversized))%Z
  /\ Z.of_nat (length ex_srt_oversized) <> Size ex_srt
  /\ Z.of_nat (length ex_srt_bytes) = Size ex_srt
  /\ (forall r,
        session_stream (ex_collab true ex_meta ex_env_none) r ex_url
          (range_headers (Z.of_nat (length ex_srt_oversized)))
        = (Returned ex_response_416, S r))
  /\ honors_range ex_srt_bytes (Z.of_nat (length ex_srt_oversized))
       ex_response_416
  /\ fst (download_file (ex_collab true ex_meta ex_env_none) ex_srt
            (lit "/lib/Movie.srt")
            (ex_world (ex_lib_with_srt ex_srt_oversized)))
     = Raised (RetryError (Exc "HTTPStatusError"))
  /\ files (snd (download_file (ex_collab true ex_meta ex_env_none) ex_srt
                   (lit "/lib/Movie.srt")
                   (ex_world (ex_lib_with_srt ex_srt_oversized))))
     !! lit "/lib/Movie.srt"
     = Some (File ex_srt_oversized).
Proof.
  split; [reflexivity|]. split; [reflexivity|].
  split; [discriminate|]. split; [reflexivity|].
  split; [intros r; reflexivity|].
  split; [vm_compute; discriminate|].
  split; vm_compute; reflexivity.
Qed.

(** C3 (amended): when the URL resolution returns, the directory is there
    and no local fault occurs, then (1) over a local file of length L
    other than the declared size S the downloader issues a GET with the
    range header [bytes=L-] and, when the response is good, appends its
    body to the file; (2) over no local file it issues a GET without a
    range and writes the body to a new file; (3) when L < S and the
    server honors the range, the download succeeds and the final length
    of the file is S. *)
Theorem download_file_resume {R} (E : Collab R) it p (w : World R) url r1 :
  dir_ready E (files w) (os_path_dirname p) ->
  client_download_info E (remote w) it = (Returned url, r1) ->
  no_fault_on E p ->
  (forall old resp r2 n,
     files w !! p = Some (File old) ->
     Z.of_nat (length old) <> Size it ->
     session_stream E r1 url (range_headers (Z.of_nat (length old)))
     = (Returned resp, r2) ->
     status_error resp = None ->
     content_length_int resp = Returned n ->
     stream_error resp = None ->
     download_file E it p w
     = (Returned true,
        {| files := <[p := File (old ++ concat (chunks resp))]> (files w);
           remote := r2;
           trace := trace w
                    ++ [CallDownloadInfo it;
                        Log INFO (MsgPartialFound p (Z.of_nat (length old))
                                                  (Size it));
                        HttpGet url (range_headers (Z.of_nat (length old)));
                        Log INFO (MsgDownloadDone p)] |}))
  /\ (forall resp r2 n,
        files w !! p = None ->
        session_stream E r1 url empty = (Returned resp, r2) ->
        status_error resp = None ->
        content_length_int resp = Returned n ->
        stream_error resp = None ->
        download_file E it p w
        = (Returned true,
           {| files := <[p := File (concat (chunks resp))]> (files w);
              remote := r2;
              trace := trace w
                       ++ [CallDownloadInfo it;
                           HttpGet url empty;
                           Log INFO (MsgDownloadDone p)] |}))
  /\ (forall old resp r2 remote_content,
        files w !! p = Some (File old) ->
        (Z.of_nat (length old) < Size it)%Z ->
        Z.of_nat (length remote_content) = Size it ->
        session_stream E r1 url (range_headers (Z.of_nat (length old)))
        = (Returned resp, r2) ->
        honors_range remote_content (Z.of_nat (length old)) resp ->
        exists w' final,
          download_file E it p w = (Returned true, w')
          /\ files w' !! p = Some (File final)
          /\ Z.of_nat (length final) = Size it).
Proof.
  intros Hdir Hinfo Hnf. split; [|split].
  - intros old resp r2 n Hp Hlen Hget Hst Hcl Hse.
    apply retry_returns.
    apply (download_file_body_resume E it p w old url r1 resp r2 n);
      assumption.
  - intros resp r2 n Hp Hget Hst Hcl Hse.
    apply retry_returns.
    apply (download_file_body_fresh E it p w url r1 resp r2 n); assumption.
  - intros old resp r2 remote_content Hp Hlt Hsize Hget Hhon.
    unfold honors_range in Hhon.
    rewrite (proj2 (Z.ltb_lt _ _)) in Hhon by lia.
    destruct Hhon as (Hst & Hse & [n Hcl] & Hbody).
    eexists. exists (old ++ concat (chunks resp)).
    split; [|split].
    + apply retry_returns.
      apply (download_file_body_resume E it p w old url r1 resp r2 n);
        try assumption. lia.
    + simpl. apply lookup_insert_eq.
    + rewrite Hbody, length_app, length_drop. lia.
Qed.

Lemma download_file_resume_witness :
  exists w' final,
    download_file (ex_collab true ex_meta ex_env_none) ex_srt
      (lit "/lib/Movie.srt") (ex_world (ex_lib_with_srt (take 2 ex_srt_bytes)))
    = (Returned true, w')
    /\ files w' !! lit "/lib/Movie.srt" = Some (File final)
    /\ Z.of_nat (length final) = Size ex_srt.
Proof.
  assert (dir_ready (ex_collab true ex_meta ex_env_none)
            (ex_lib_with_srt (take 2 ex_srt_bytes))
            (os_path_dirname (lit "/lib/Movie.srt"))) as Hdir.
  { split; [vm_compute; discriminate | split; reflexivity]. }
  assert (no_fault_on (ex_collab true ex_meta ex_env_none)
            (lit "/lib/Movie.srt")) as Hnf.
  { intros fs. split; reflexivity. }
  apply (proj2 (proj2
           (download_file_resume (ex_collab true ex_meta ex_env_none) ex_srt
              (lit "/lib/Movie.srt")
              (ex_world (ex_lib_with_srt (take 2 ex_srt_bytes)))
              ex_url 1%nat Hdir eq_refl Hnf))
           (take 2 ex_srt_bytes) (ex_response (drop 2 ex_srt_bytes)) 2%nat
           ex_srt_bytes).
  - reflexivity.
  - vm_compute. reflexivity.
  - reflexivity.
  - reflexivity.
  - vm_compute. repeat split; try reflexivity. exists 3%Z. reflexivity.
Defined.

(** ** The retry policy *)

Lemma wait_exponential_bounds n :
  (2 <= wait_exponential 1 2 10 n <= 10)%Z.
Proof. unfold wait_exponential. lia. Qed.

Lemma wait_exponential_monotone n m :
  (n <= m)%nat ->
  (wait_exponential 1 2 10 n <= wait_exponential 1 2 10 m)%Z.
Proof.
  intros H. unfold wait_exponential.
  assert (2 ^ (Z.of_nat n - 1) <= 2 ^ (Z.of_nat m - 1))%Z.
  { destruct n as [|n].
    - simpl. apply Z.pow_nonneg. lia.
    - apply Z.pow_le_mono_r; lia. }
  lia.
Qed.

(** C4 (as stated it fails): with the remote side unreachable the three
    attempts are separated by two sleeps of 2 seconds each: the delays are
    not strictly increasing. *)
Lemma download_file_retry_delays_equal :
  fst (download_file (ex_collab false ex_meta ex_env_none) ex_srt
         (lit "/lib/Movie.srt") (ex_world ex_lib))
  = Raised (RetryError (Exc "ConnectError"))
  /\ sleeps_of (trace (snd (download_file
                              (ex_collab false ex_meta ex_env_none) ex_srt
                              (lit "/lib/Movie.srt") (ex_world ex_lib))))
     = [2; 2]%Z
  /\ ~ strictly_increasing
         (sleeps_of (trace (snd (download_file
                                   (ex_collab false ex_meta ex_env_none)
                                   ex_srt (lit "/lib/Movie.srt")
                                   (ex_world ex_lib))))).
Proof.
  split; [vm_compute; reflexivity|]. split; [vm_compute; reflexivity|].
  vm_compute. intros [H _]. discriminate H.
Qed.

(** C4 (amended): a download whose attempt raises three times in a row is
    attempted exactly three times: the first attempt, a warning and a
    sleep of 2 seconds, the second attempt, a warning and a sleep of 2
    seconds, the third attempt, and then the failure is raised to the
    caller ([RetryError] around the last exception). The delays of the
    wait policy are at least 2 and at most 10 seconds and never
    decrease. *)
Theorem download_file_retry_bound {R} (E : Collab R) it p (w : World R)
  e1 w1 e2 w2 e3 w3 :
  download_file_body E it p w = (Raised e1, w1) ->
  download_file_body E it p
    (emit (Sleep 2) (emit (Log WARNING MsgRetrying) w1)) = (Raised e2, w2) ->
  download_file_body E it p
    (emit (Sleep 2) (emit (Log WARNING MsgRetrying) w2)) = (Raised e3, w3) ->
  download_file E it p w = (Raised (RetryError e3), w3)
  /\ (forall n, (2 <= wait_exponential 1 2 10 n <= 10)%Z)
  /\ (forall n m, (n <= m)%nat ->
        (wait_exponential 1 2 10 n <= wait_exponential 1 2 10 m)%Z).
Proof.
  intros H1 H2 H3. split; [|split].
  - unfold download_file, retry. simpl.
    unfold try_except at 1. rewrite H1.
    unfold bind at 1. unfold logger at 1.
    unfold bind at 1. unfold time_sleep at 1.
    change (wait_exponential 1 2 10 1) with 2%Z.
    unfold try_except at 1. rewrite H2.
    unfold bind at 1. unfold logger at 1.
    unfold bind at 1. unfold time_sleep at 1.
    change (wait_exponential 1 2 10 2) with 2%Z.
    unfold try_except at 1. rewrite H3. reflexivity.
  - apply wait_exponential_bounds.
  - apply wait_exponential_monotone.
Qed.

Lemma download_file_retry_bound_witness :
  download_file (ex_collab false ex_meta ex_env_none) ex_srt
    (lit "/lib/Movie.srt") (ex_world ex_lib)
  = (Raised (RetryError (Exc "ConnectError")),
     snd (download_file (ex_collab false ex_meta ex_env_none) ex_srt
            (lit "/lib/Movie.srt") (ex_world ex_lib))).
Proof.
  set (E := ex_collab false ex_meta ex_env_none).
  set (p := lit "/lib/Movie.srt").
  set (w1 := snd (download_file_body E ex_srt p (ex_world ex_lib))).
  set (w2 := snd (download_file_body E ex_srt p
                    (emit (Sleep 2) (emit (Log WARNING MsgRetrying) w1)))).
  set (w3 := snd (download_file_body E ex_srt p
                    (emit (Sleep 2) (emit (Log WARNING MsgRetrying) w2)))).
  refine (eq_trans
            (proj1 (download_file_retry_bound E ex_srt p (ex_world ex_lib)
                      (Exc "ConnectError") w1 (Exc "ConnectError") w2
                      (Exc "ConnectError") w3 _ _ _)) _);
    vm_compute; reflexivity.
Defined.

(** ** The per-item handler *)

Section ItemFacts.

Context {R : Type} (E : Collab R).

Lemma has_key_false (data : gmap pystr pyval) k :
  has_key data k = false <-> data !! k = None.
Proof.
  unfold has_key. rewrite bool_decide_eq_false.
  split.
  - intros H. destruct (data !! k) eqn:Hk; [|reflexivity].
    exfalso. apply H. eauto.
  - intros -> [x Hx]. discriminate Hx.
Qed.

Lemma has_key_true (data : gmap pystr pyval) k :
  has_key data k = true <-> is_Some (data !! k).
Proof. unfold has_key. apply bool_decide_eq_true. Qed.

Lemma str_lower_ascii s :
  is_ascii s = true -> str_lower E s = List.map ascii_lower_char s.
Proof. intros H. unfold str_lower. rewrite H. reflexivity. Qed.

(** The loop over the required fields stops at a field exactly when some
    required field is missing under both names. *)
Lemma first_missing_lacks (data : gmap pystr pyval) :
  lacks_required data ->
  exists field, first_missing E data = Some field
                /\ In field required_fields.
Proof.
  intros H. unfold first_missing.
  destruct (List.find _ required_fields) as [f|] eqn:Hf.
  - exists f. split; [reflexivity|].
    apply List.find_some in Hf. tauto.
  - exfalso.
    assert (forall f, In f required_fields ->
              data !! str_lower E f = None -> data !! f = None -> False)
      as Hno.
    { intros f Hin H1 H2.
      pose proof (List.find_none _ _ Hf f Hin) as Hx. simpl in Hx.
      rewrite (proj2 (has_key_false data _) H1) in Hx.
      rewrite (proj2 (has_key_false data _) H2) in Hx.
      discriminate Hx. }
    destruct H as [[H1 H2]|[[H1 H2]|[H1 H2]]].
    + apply (Hno (lit "Etag")); [simpl; tauto | exact H2 | exact H1].
    + apply (Hno (lit "S3KeyFlag"));
        [simpl; tauto | exact H2 | exact H1].
    + apply (Hno (lit "Size")); [simpl; tauto | exact H2 | exact H1].
Qed.

Lemma first_missing_complete (data : gmap pystr pyval) :
  first_missing E data = None -> ~ lacks_required data.
Proof.
  intros Hf H. destruct (first_missing_lacks data H) as (f & Hf' & _).
  congruence.
Qed.

(** The line of the source is the line of the format. *)
Lemma strm_url_pointer_line (it : item) (data : gmap pystr pyval) :
  strm_url it data
  = pointer_line (FileName it) (shown_size it data) (shown_etag data)
      (present_flag data).
Proof.
  unfold strm_url, pointer_line, shown_size, shown_etag, present_flag,
    present_value, py_or, dict_get.
  destruct (data !! lit "Etag") as [e1|];
    destruct (data !! lit "S3KeyFlag") as [f1|];
    destruct (data !! lit "Size") as [s1|];
    destruct (data !! lit "s3keyflag") as [f2|];
    repeat (cbn [truthy]; cbv beta iota zeta;
            match goal with
            | |- context [truthy ?v] => destruct (truthy v) eqn:?
            end);
    cbn [truthy]; cbv beta iota zeta;
    try discriminate;
    repeat rewrite <- app_assoc; rewrite ?app_nil_r;
    try reflexivity; try congruence.
Qed.

Lemma present_flag_iff (data : gmap pystr pyval) :
  is_Some (present_flag data)
  <-> (exists v, data !! lit "S3KeyFlag" = Some v /\ truthy v = true)
      \/ (exists v, data !! lit "s3keyflag" = Some v /\ truthy v = true).
Proof.
  unfold present_flag, present_value. split.
  - destruct (data !! lit "S3KeyFlag") as [v|].
    + destruct (truthy v) eqn:Hv; [left; eauto|].
      destruct (data !! lit "s3keyflag") as [v'|].
      * destruct (truthy v') eqn:Hv'; [right; eauto|].
        intros [x Hx]; discriminate Hx.
      * intros [x Hx]; discriminate Hx.
    + destruct (data !! lit "s3keyflag") as [v'|].
      * destruct (truthy v') eqn:Hv'; [right; eauto|].
        intros [x Hx]; discriminate Hx.
      * intros [x Hx]; discriminate Hx.
  - intros [(v & Hv & Ht)|(v & Hv & Ht)].
    + rewrite Hv, Ht. eauto.
    + rewrite Hv, Ht.
      destruct (data !! lit "S3KeyFlag") as [v1|];
        [destruct (truthy v1)|]; eauto.
Qed.

End ItemFacts.

(** ** The pointer-file branch *)

Section EmitterFacts.

Context {R : Type} (E : Collab R).

Lemma regenerate_condition (w : World R) sp :
  files w !! sp = None \/ force_regenerate E = true ->
  negb (bool_decide (is_Some (files w !! sp)))
  || bool_decide (os_getenv E (lit "DEBUG") = Some (lit "1")) = true.
Proof.
  intros [H|H].
  - rewrite H. rewrite bool_decide_eq_false_2; [reflexivity|].
    intros [x Hx]. discriminate Hx.
  - unfold force_regenerate in H. rewrite H. apply orb_true_r.
Qed.

(** The pointer file exists and regeneration is not forced: nothing is
    done. *)
Lemma generate_strm_file_skips (it : item) lp (w : World R) :
  is_Some (files w !! strm_path_of it lp) ->
  force_regenerate E = false ->
  generate_strm_file E it lp w = (Returned (Some true), w).
Proof.
  intros Hex Hforce. unfold generate_strm_file, bind, os_path_exists.
  rewrite bool_decide_eq_true_2 by exact Hex.
  unfold force_regenerate in Hforce. rewrite Hforce. reflexivity.
Qed.

(** Complete metadata: the line is written, over whatever was there. *)
Lemma generate_strm_file_writes (it : item) lp (w : World R)
  data rest r1 bytes :
  files w !! strm_path_of it lp = None \/ force_regenerate E = true ->
  files w !! strm_path_of it lp <> Some Dir ->
  client_fs_info E (remote w) (FileId it) = (Returned (data :: rest), r1) ->
  first_missing E data = None ->
  utf8_encode (strm_url it data) = Some bytes ->
  no_fault_on E (strm_path_of it lp) ->
  generate_strm_file E it lp w
  = (Returned (Some true),
     {| files := <[strm_path_of it lp := File bytes]> (files w);
        remote := r1;
        trace := trace w
                 ++ [CallFsInfo (FileId it);
                     Log INFO (MsgStrmGenerated (strm_path_of it lp))] |}).
Proof.
  intros Hcond Hnd Hinfo Hmiss Hutf Hnf.
  unfold generate_strm_file.
  unfold bind at 1. unfold os_path_exists at 1.
  rewrite (regenerate_condition w _ Hcond).
  unfold bind at 1. unfold call. simpl. rewrite Hinfo.
  unfold bind at 1. unfold first_info, ret at 1.
  rewrite Hmiss.
  unfold bind at 1. unfold open_file, bind, io. simpl.
  rewrite (proj1 (Hnf _)). simpl.
  destruct (files w !! strm_path_of it lp) as [[c|]|] eqn:Hsp;
    try (exfalso; apply Hnd; reflexivity);
    unfold file_write_text; rewrite Hutf;
    unfold file_write, bind, io;
    rewrite (proj2 (Hnf _)); simpl; rewrite lookup_insert_eq;
    unfold logger, ret, emit, set_files, set_remote; simpl;
    rewrite insert_insert_eq; repeat rewrite <- app_assoc; reflexivity.
Qed.

(** A required field is missing: an error is logged and nothing is
    written. *)
Lemma generate_strm_file_missing (it : item) lp (w : World R)
  data rest r1 field :
  files w !! strm_path_of it lp = None \/ force_regenerate E = true ->
  client_fs_info E (remote w) (FileId it) = (Returned (data :: rest), r1) ->
  first_missing E data = Some field ->
  generate_strm_file E it lp w
  = (Returned (Some false),
     {| files := files w;
        remote := r1;
        trace := trace w
                 ++ [CallFsInfo (FileId it);
                     Log ERROR (MsgMissingField (FileName it) field)] |}).
Proof.
  intros Hcond Hinfo Hmiss.
  unfold generate_strm_file.
  unfold bind at 1. unfold os_path_exists at 1.
  rewrite (regenerate_condition w _ Hcond).
  unfold bind at 1. unfold call. simpl. rewrite Hinfo.
  unfold bind at 1. unfold first_info, ret at 1.
  rewrite Hmiss.
  unfold bind, logger, ret, emit, set_remote. simpl.
  rewrite <- app_assoc. reflexivity.
Qed.

(** When regeneration is due, the metadata call is the first effect,
    whatever comes after it. *)
Lemma generate_strm_file_fetches (it : item) lp (w : World R) :
  files w !! strm_path_of it lp = None \/ force_regenerate E = true ->
  exists evs,
    trace (snd (generate_strm_file E it lp w))
    = trace w ++ CallFsInfo (FileId it) :: evs.
Proof.
  intros Hcond. unfold generate_strm_file.
  unfold bind at 1. unfold os_path_exists at 1.
  rewrite (regenerate_condition w _ Hcond).
  unfold bind at 1. unfold call. simpl.
  destruct (client_fs_info E (remote w) (FileId it)) as [[info|e] r1].
  2: { exists []. reflexivity. }
  unfold bind at 1. destruct info as [|data rest]; simpl.
  { exists []. reflexivity. }
  unfold ret at 1.
  destruct (first_missing E data) as [field|].
  { exists [Log ERROR (MsgMissingField (FileName it) field)].
    unfold bind, logger, ret, emit, set_remote. simpl.
    rewrite <- app_assoc. reflexivity. }
  unfold bind at 1. unfold open_file, bind, io. simpl.
  destruct (io_fault E (files w) (OpOpen (strm_path_of it lp) ModeW)).
  { exists []. reflexivity. }
  assert (forall (w0 : World R) evs0,
            trace w0 = trace w ++ CallFsInfo (FileId it) :: evs0 ->
            exists evs,
              trace (snd ((file_write_text E (strm_path_of it lp)
                             (strm_url it data) ;;;
                           logger INFO (MsgStrmGenerated (strm_path_of it lp)) ;;;
                           ret (Some true)) w0))
              = trace w ++ CallFsInfo (FileId it) :: evs) as Hrest.
  { intros w0 evs0 Hw0. unfold bind at 1. unfold file_write_text.
    destruct (utf8_encode (strm_url it data)) as [bytes|].
    - unfold file_write, bind, io.
      destruct (io_fault E (files w0) _).
      + exists evs0. exact Hw0.
      + destruct (files w0 !! strm_path_of it lp) as [[c|]|].
        * exists (evs0 ++ [Log INFO (MsgStrmGenerated (strm_path_of it lp))]).
          unfold logger, ret, emit, set_files. simpl. rewrite Hw0.
          rewrite <- app_assoc. reflexivity.
        * exists evs0. exact Hw0.
        * exists evs0. exact Hw0.
    - exists evs0. exact Hw0. }
  cbn [files set_remote emit].
  destruct (files w !! strm_path_of it lp) as [[c|]|]; cbv beta iota.
  - apply (Hrest _ []). reflexivity.
  - exists []. reflexivity.
  - apply (Hrest _ []). reflexivity.
Qed.

End EmitterFacts.

(** ** Classification by extension *)

Lemma startswith_nil s : startswith s [] = true.
Proof. destruct s; reflexivity. Qed.

(** Two prefixes of one string: one is a prefix of the other. *)
Lemma startswith_comparable r : forall p q,
  startswith r p = true -> startswith r q = true ->
  startswith p q = true \/ startswith q p = true.
Proof.
  induction r as [|c r IH]; intros [|a p] [|b q] Hp Hq;
    try (left; reflexivity); try (right; reflexivity);
    try discriminate.
  simpl in *.
  apply andb_prop in Hp as [Ha Hp]. apply andb_prop in Hq as [Hb Hq].
  apply N.eqb_eq in Ha, Hb. subst a b.
  rewrite N.eqb_refl. simpl. apply IH; assumption.
Qed.

(** No video extension and subtitle extension end the same name. *)
Lemma exts_disjoint (s : pystr) :
  endswith s VIDEO_EXTS = true -> endswith s SUBTITLE_EXTS = false.
Proof.
  intros Hv. destruct (endswith s SUBTITLE_EXTS) eqn:Hs; [|reflexivity].
  exfalso. unfold endswith in *.
  apply existsb_exists in Hv as (v & Hv & Hsv).
  apply existsb_exists in Hs as (u & Hu & Hsu).
  unfold endswith1 in *.
  destruct (startswith_comparable _ _ _ Hsv Hsu) as [H|H].
  - assert (forallb (fun v => forallb (fun u =>
              negb (startswith (rev v) (rev u))) SUBTITLE_EXTS) VIDEO_EXTS
            = true) as Hall by (vm_compute; reflexivity).
    rewrite forallb_forall in Hall. specialize (Hall v Hv).
    rewrite forallb_forall in Hall. specialize (Hall u Hu).
    rewrite H in Hall. discriminate Hall.
  - assert (forallb (fun v => forallb (fun u =>
              negb (startswith (rev u) (rev v))) SUBTITLE_EXTS) VIDEO_EXTS
            = true) as Hall by (vm_compute; reflexivity).
    rewrite forallb_forall in Hall. specialize (Hall v Hv).
    rewrite forallb_forall in Hall. specialize (Hall u Hu).
    rewrite H in Hall. discriminate Hall.
Qed.

Section HandlerFacts.

Context {R : Type} (E : Collab R).

Lemma process_item_video (it : item) lp (w : World R) :
  subtitle_only E = false ->
  is_video_name E it = true ->
  process_item E it lp w
  = try_except (generate_strm_file E it lp) (process_item_failed it) w.
Proof.
  intros Hs Hv. unfold process_item.
  unfold subtitle_only in Hs. unfold is_video_name in Hv.
  rewrite Hs, Hv. reflexivity.
Qed.

Lemma process_item_subtitle (it : item) lp (w : World R) :
  is_subtitle_name E it = true ->
  process_item E it lp w
  = try_except (b <- download_file E it (sub_path_of it lp) ;; ret (Some b))
               (process_item_failed it) w.
Proof.
  intros Hsub. unfold process_item.
  assert (endswith (str_lower E (FileName it)) VIDEO_EXTS = false) as Hv.
  { destruct (endswith (str_lower E (FileName it)) VIDEO_EXTS) eqn:Hv;
      [|reflexivity].
    apply exts_disjoint in Hv. unfold is_subtitle_name in Hsub.
    congruence. }
  unfold is_subtitle_name in Hsub. rewrite Hv, Hsub, andb_false_r.
  reflexivity.
Qed.

Lemma process_item_ignored (it : item) lp (w : World R) :
  (is_video_name E it = false /\ is_subtitle_name E it = false)
  \/ (subtitle_only E = true /\ is_video_name E it = true) ->
  process_item E it lp w = (Returned None, w).
Proof.
  unfold is_video_name, is_subtitle_name, subtitle_only, process_item.
  intros [[Hv Hs]|[Hso Hv]].
  - rewrite Hv, Hs, andb_false_r. reflexivity.
  - rewrite Hso, (exts_disjoint _ Hv). reflexivity.
Qed.

(** The handler never raises. *)
Lemma process_item_returns (it : item) lp (w : World R) :
  exists r w', process_item E it lp w = (Returned r, w').
Proof.
  unfold process_item, try_except.
  match goal with
  | |- context [match ?m w with _ => _ end] => destruct (m w) as [[r|e] w1]
  end.
  - eauto.
  - unfold bind, logger, ret. eauto.
Qed.

(** One turn of the loop over a file item. *)
Lemma walk_items_file recurse lp (it : item) rest (w : World R) :
  Type_ it = 0%Z ->
  walk_items E recurse lp (it :: rest) w
  = match process_item E it lp
            (emit (Log INFO (MsgProcessing (FileName it))) w) with
    | (Returned r, w1) =>
        walk_items E recurse lp rest
          (if result_truthy r then emit (Sleep REQUEST_DELAY) w1 else w1)
    | (Raised e, w1) => Some (Raised e, w1)
    end.
Proof.
  intros Hty. simpl. unfold bindF at 1. unfold liftF at 1, logger at 1.
  unfold bindF at 1. rewrite Hty. simpl.
  unfold bindF at 1. unfold liftF at 1.
  destruct (process_item E it lp _) as [[r|e] w1]; [|reflexivity].
  destruct (result_truthy r); reflexivity.
Qed.

(** Over a listing of file items the loop comes to its end and returns,
    whatever the recursive call is. *)
Lemma walk_items_files_return recurse lp (items : list item) :
  Forall (fun it => Type_ it = 0%Z) items ->
  forall w : World R,
    exists w', walk_items E recurse lp items w = Some (Returned tt, w').
Proof.
  induction 1 as [|it items Hty Hall IH]; intros w.
  - exists w. reflexivity.
  - rewrite walk_items_file by exact Hty.
    destruct (process_item_returns it lp
                (emit (Log INFO (MsgProcessing (FileName it))) w))
      as (r & w1 & Hr).
    rewrite Hr. apply IH.
Qed.

End HandlerFacts.

Lemma first_missing_none {R} (E : Collab R) (data : gmap pystr pyval) :
  ~ lacks_required data -> first_missing E data = None.
Proof.
  intros H. destruct (first_missing E data) as [f|] eqn:Hf; [|reflexivity].
  exfalso. apply H. unfold first_missing in Hf.
  apply List.find_some in Hf as [Hin Hp].
  apply andb_prop in Hp as [H1 H2].
  apply negb_true_iff in H1, H2.
  apply has_key_false in H1, H2.
  simpl in Hin.
  destruct Hin as [<-|[<-|[<-|[]]]].
  - left. split; [exact H2 | exact H1].
  - right. left. split; [exact H2 | exact H1].
  - right. right. split; [exact H2 | exact H1].
Qed.

(** ** The pointer file *)

Lemma lit_cons c s : lit (String c s) = N_of_ascii c :: lit s.
Proof. reflexivity. Qed.

Lemma single_line_lit_uint d : single_line (lit (NilEmpty.string_of_uint d)).
Proof.
  unfold single_line.
  induction d; cbn [NilEmpty.string_of_uint]; try rewrite lit_cons;
    constructor; try reflexivity; assumption.
Qed.

(** A decimal numeral is one line. *)
Lemma single_line_str_int z : single_line (str_int z).
Proof.
  unfold str_int. destruct (Z.to_int z) as [d|d];
    cbn [NilEmpty.string_of_int].
  - apply single_line_lit_uint.
  - rewrite lit_cons. constructor; [reflexivity|].
    apply single_line_lit_uint.
Qed.

Lemma single_line_py_str v :
  (forall s, v = PStr s -> single_line s) -> single_line (py_str v).
Proof.
  intros H. destruct v as [|[|]|z|s]; cbn [py_str].
  - vm_compute. repeat constructor.
  - vm_compute. repeat constructor.
  - vm_compute. repeat constructor.
  - apply single_line_str_int.
  - apply H. reflexivity.
Qed.

Lemma present_value_lookup (data : gmap pystr pyval) k v :
  present_value data k = Some v -> data !! k = Some v.
Proof.
  unfold present_value. destruct (data !! k) as [x|]; [|discriminate].
  destruct (truthy x); [|discriminate]. intros H. exact H.
Qed.

Lemma single_line_shown_size (it : item) (data : gmap pystr pyval) :
  values_single_line data -> single_line (py_str (shown_size it data)).
Proof.
  intros Hd. unfold shown_size.
  destruct (present_value data (lit "Size")) as [v|] eqn:Hv.
  - apply single_line_py_str. intros s ->.
    apply (Hd _ _ (present_value_lookup _ _ _ Hv)).
  - apply single_line_str_int.
Qed.

Lemma single_line_shown_etag (data : gmap pystr pyval) :
  values_single_line data -> single_line (py_str (shown_etag data)).
Proof.
  intros Hd. unfold shown_etag.
  destruct (present_value data (lit "Etag")) as [v|] eqn:Hv.
  - apply single_line_py_str. intros s ->.
    apply (Hd _ _ (present_value_lookup _ _ _ Hv)).
  - unfold dict_get. destruct (data !! lit "etag") as [v|] eqn:Hl.
    + apply single_line_py_str. intros s ->. apply (Hd _ _ Hl).
    + constructor.
Qed.

Lemma single_line_present_flag (data : gmap pystr pyval) f :
  values_single_line data -> present_flag data = Some f ->
  single_line (py_str f).
Proof.
  intros Hd. unfold present_flag.
  destruct (present_value data (lit "S3KeyFlag")) as [v|] eqn:Hv.
  - intros H. inversion H; subst.
    apply single_line_py_str. intros s ->.
    apply (Hd _ _ (present_value_lookup _ _ _ Hv)).
  - intros H. apply single_line_py_str. intros s ->.
    apply (Hd _ _ (present_value_lookup _ _ _ H)).
Qed.

(** The line is one line when the name and the string values of the
    metadata are. *)
Lemma single_line_pointer_line (it : item) (data : gmap pystr pyval) :
  single_line (FileName it) ->
  values_single_line data ->
  single_line (pointer_line (FileName it) (shown_size it data)
                 (shown_etag data) (present_flag data)).
Proof.
  intros Hn Hd. unfold pointer_line, single_line.
  repeat (apply Forall_app; split).
  - vm_compute. repeat constructor.
  - vm_compute. repeat constructor.
  - exact Hn.
  - vm_compute. repeat constructor.
  - apply single_line_shown_size. exact Hd.
  - vm_compute. repeat constructor.
  - apply single_line_shown_etag. exact Hd.
  - destruct (present_flag data) as [f|] eqn:Hf; [|constructor].
    apply Forall_app. split.
    + vm_compute. repeat constructor.
    + apply (single_line_present_flag data f Hd Hf).
Qed.

(** [str] of an integer is its decimal numeral. *)
Lemma read_decimal_str_int z : read_decimal (str_int z) = Some z.
Proof.
  unfold read_decimal, str_int, lit.
  rewrite List.map_map.
  rewrite (List.map_ext _ (fun a => a)) by (intros a; apply ascii_N_embedding).
  rewrite List.map_id, string_of_list_ascii_of_string.
  rewrite NilEmpty.isi. cbn [option_map]. rewrite DecimalZ.of_to.
  reflexivity.
Qed.

Lemma to_N_to_byte c : c < 128 -> Byte.to_N (to_byte c) = c.
Proof.
  intros Hc. unfold to_byte.
  rewrite N.mod_small by lia.
  pose proof (Byte.to_of_N_option_map c) as H.
  destruct (Byte.of_N c) as [b|]; cbn [option_map] in H.
  - destruct (N.leb c 255); [|discriminate H]. congruence.
  - destruct (N.leb c 255) eqn:Hle; [discriminate H|].
    apply N.leb_gt in Hle. lia.
Qed.

(** A text of ASCII characters is written one byte for each character,
    the byte of its code. *)
Lemma utf8_encode_ascii (s : pystr) : forall bytes,
  is_ascii s = true -> utf8_encode s = Some bytes ->
  List.map Byte.to_N bytes = s.
Proof.
  induction s as [|c s IH]; intros bytes Ha He.
  - simpl in He. inversion He. reflexivity.
  - cbn [is_ascii forallb] in Ha. apply andb_prop in Ha as [Hc Ha].
    cbn [utf8_encode] in He. unfold utf8_encode_char in He.
    rewrite Hc in He.
    destruct (utf8_encode s) as [bs|]; [|discriminate He].
    inversion He; subst. cbn [List.map app].
    rewrite (IH bs Ha eq_refl).
    rewrite to_N_to_byte by (apply N.ltb_lt; exact Hc). reflexivity.
Qed.



(** C6: for a media item whose pointer file exists, the handler without
    the force switch fetches no metadata, writes nothing and returns
    success (the world is unchanged); with the force switch it fetches the
    metadata first of all, and with complete metadata it overwrites the
    pointer file with the new line. *)
Theorem pointer_file_skip_or_force {R} (E : Collab R) (it : item) lp
  (w : World R) :
  subtitle_only E = false ->
  is_video_name E it = true ->
  is_Some (files w !! strm_path_of it lp) ->
  (force_regenerate E = false ->
   process_item E it lp w = (Returned (Some true), w))
  /\ (force_regenerate E = true ->
      (exists evs,
         trace (snd (process_item E it lp w))
         = trace w ++ CallFsInfo (FileId it) :: evs)
      /\ forall data rest r1 bytes,
           files w !! strm_path_of it lp <> Some Dir ->
           client_fs_info E (remote w) (FileId it)
           = (Returned (data :: rest), r1) ->
           ~ lacks_required data ->
           utf8_encode (strm_url it data) = Some bytes ->
           no_fault_on E (strm_path_of it lp) ->
           process_item E it lp w
           = (Returned (Some true),
              {| files := <[strm_path_of it lp := File bytes]> (files w);
                 remote := r1;
                 trace := trace w
                          ++ [CallFsInfo (FileId it);
                              Log INFO (MsgStrmGenerated
                                          (strm_path_of it lp))] |})).
Proof.
  intros Hso Hv Hex. split.
  - intros Hforce. rewrite process_item_video by assumption.
    unfold try_except.
    rewrite generate_strm_file_skips by assumption. reflexivity.
  - intros Hforce. split.
    + rewrite process_item_video by assumption.
      destruct (generate_strm_file_fetches E it lp w (or_intror Hforce))
        as [evs Hevs].
      unfold try_except.
      destruct (generate_strm_file E it lp w) as [[r|e] w1]; simpl in *.
      * exists evs. exact Hevs.
      * exists (evs ++ [Log ERROR (MsgProcessFailed (FileName it) e)]).
        rewrite Hevs. rewrite <- app_assoc. reflexivity.
    + intros data rest r1 bytes Hnd Hinfo Hreq Hutf Hnf.
      rewrite process_item_video by assumption.
      unfold try_except.
      rewrite (generate_strm_file_writes E it lp w data rest r1 bytes);
        try assumption; try reflexivity.
      * right. exact Hforce.
      * apply first_missing_none. exact Hreq.
Qed.

Lemma pointer_file_skip_or_force_witness :
  process_item (ex_collab true ex_meta ex_env_none) ex_mkv (lit "/lib")
    (ex_world ex_lib_with_strm)
  = (Returned (Some true), ex_world ex_lib_with_strm)
  /\ process_item (ex_collab true ex_meta ex_env_debug) ex_mkv (lit "/lib")
       (ex_world ex_lib_with_strm)
     = (Returned (Some true),
        {| files := <[lit "/lib/Movie.strm" := File ex_strm_bytes]>
                      ex_lib_with_strm;
           remote := 1%nat;
           trace := [CallFsInfo 2;
                     Log INFO (MsgStrmGenerated (lit "/lib/Movie.strm"))] |}).
Proof.
  split.
  - apply (proj1 (pointer_file_skip_or_force
                    (ex_collab true ex_meta ex_env_none) ex_mkv (lit "/lib")
                    (ex_world ex_lib_with_strm) eq_refl eq_refl
                    ltac:(vm_compute; eauto))).
    reflexivity.
  - apply (proj2 (proj2 (pointer_file_skip_or_force
                    (ex_collab true ex_meta ex_env_debug) ex_mkv (lit "/lib")
                    (ex_world ex_lib_with_strm) eq_refl eq_refl
                    ltac:(vm_compute; eauto)) eq_refl)
             ex_meta [] 1%nat ex_strm_bytes).
    + vm_compute. discriminate.
    + reflexivity.
    + intros [[H _]|[[H _]|[H _]]]; vm_compute in H; discriminate H.
    + vm_compute. reflexivity.
    + intros fs; split; reflexivity.
Defined.



(** C8: the handler never raises. An exception of the pointer-file branch
    or of the download (its retries exhausted) is caught, logged as an
    error and turned into the result [False]; the loop of the walker then
    goes on with the siblings at once, from the world the failure left and
    without a sleep (over a listing of file items it always comes to its
    end). A failure of the directory listing is logged as critical and
    raised again to the caller of the walker. *)
Theorem item_failures_are_isolated {R} (E : Collab R) :
  (forall (it : item) lp (w : World R),
     exists r w', process_item E it lp w = (Returned r, w'))
  /\ (forall (it : item) lp (w : World R) e w1,
        subtitle_only E = false ->
        is_video_name E it = true ->
        generate_strm_file E it lp w = (Raised e, w1) ->
        process_item E it lp w
        = (Returned (Some false),
           emit (Log ERROR (MsgProcessFailed (FileName it) e)) w1))
  /\ (forall (it : item) lp (w : World R) e w1,
        is_subtitle_name E it = true ->
        download_file E it (sub_path_of it lp) w = (Raised e, w1) ->
        process_item E it lp w
        = (Returned (Some false),
           emit (Log ERROR (MsgProcessFailed (FileName it) e)) w1))
  /\ (forall recurse lp (it : item) siblings (w : World R),
        Type_ it = 0%Z ->
        walk_items E recurse lp (it :: siblings) w
        = match process_item E it lp (announced it w) with
          | (Returned r, w1) =>
              walk_items E recurse lp siblings
                (if result_truthy r then emit (Sleep REQUEST_DELAY) w1
                 else w1)
          | (Raised e, w1) => Some (Raised e, w1)
          end)
  /\ (forall recurse lp (it : item) siblings (w : World R) e w1,
        Type_ it = 0%Z ->
        subtitle_only E = false ->
        is_video_name E it = true ->
        generate_strm_file E it lp (announced it w) = (Raised e, w1) ->
        walk_items E recurse lp (it :: siblings) w
        = walk_items E recurse lp siblings
            (emit (Log ERROR (MsgProcessFailed (FileName it) e)) w1))
  /\ (forall recurse lp (it : item) siblings (w : World R) e w1,
        Type_ it = 0%Z ->
        is_subtitle_name E it = true ->
        download_file E it (sub_path_of it lp) (announced it w)
        = (Raised e, w1) ->
        walk_items E recurse lp (it :: siblings) w
        = walk_items E recurse lp siblings
            (emit (Log ERROR (MsgProcessFailed (FileName it) e)) w1))
  /\ (forall recurse lp (items : list item) (w : World R),
        Forall (fun it => Type_ it = 0%Z) items ->
        exists w', walk_items E recurse lp items w = Some (Returned tt, w'))
  /\ (forall fuel lp parent_id (w : World R) e r1,
        iterdir E (remote w) parent_id = (Raised e, r1) ->
        generate_strm E (S fuel) lp parent_id w
        = Some (Raised e,
                {| files := files w;
                   remote := r1;
                   trace := trace w
                            ++ [Log INFO (MsgDirStart parent_id);
                                CallIterdir parent_id;
                                Log CRITICAL (MsgDirFailed parent_id e)] |})).
Proof.
  split; [|split; [|split; [|split; [|split; [|split; [|split]]]]]].
  - intros it lp w. apply process_item_returns.
  - intros it lp w e w1 Hso Hv Hgen.
    rewrite process_item_video by assumption.
    unfold try_except. rewrite Hgen. reflexivity.
  - intros it lp w e w1 Hsub Hdl.
    rewrite process_item_subtitle by assumption.
    unfold try_except, bind. rewrite Hdl. reflexivity.
  - intros recurse lp it siblings w Hty.
    rewrite walk_items_file by exact Hty. reflexivity.
  - intros recurse lp it siblings w e w1 Hty Hso Hv Hgen.
    rewrite walk_items_file by exact Hty.
    change (emit (Log INFO (MsgProcessing (FileName it))) w)
      with (announced it w).
    rewrite process_item_video by assumption.
    unfold try_except. rewrite Hgen. reflexivity.
  - intros recurse lp it siblings w e w1 Hty Hsub Hdl.
    rewrite walk_items_file by exact Hty.
    change (emit (Log INFO (MsgProcessing (FileName it))) w)
      with (announced it w).
    rewrite process_item_subtitle by assumption.
    unfold try_except, bind. rewrite Hdl. reflexivity.
  - intros recurse lp items w Hall.
    apply walk_items_files_return. exact Hall.
  - intros fuel lp parent_id w e r1 Hlist. simpl.
    unfold try_exceptF, bindF, liftF, logger, call. simpl.
    rewrite Hlist. simpl. unfold raise, emit, set_remote. simpl.
    repeat rewrite <- app_assoc. reflexivity.
Qed.

Lemma item_failures_are_isolated_witness :
  process_item (ex_collab false ex_meta ex_env_none) ex_srt (lit "/lib")
    (ex_world ex_lib)
  = (Returned (Some false),
     emit (Log ERROR (MsgProcessFailed (lit "Movie.srt")
                        (RetryError (Exc "ConnectError"))))
       (snd (download_file (ex_collab false ex_meta ex_env_none) ex_srt
               (lit "/lib/Movie.srt") (ex_world ex_lib))))
  /\ ex_offline_loop
     = Some (Returned tt,
             {| files := ex_lib;
                remote := 3%nat;
                trace :=
                  [Log INFO (MsgProcessing (lit "Movie.srt"));
                   CallDownloadInfo ex_srt;
                   Log ERROR (MsgDownloadFailed (lit "/lib/Movie.srt")
                                (Exc "ConnectError"));
                   Log WARNING MsgRetrying; Sleep 2;
                   CallDownloadInfo ex_srt;
                   Log ERROR (MsgDownloadFailed (lit "/lib/Movie.srt")
                                (Exc "ConnectError"));
                   Log WARNING MsgRetrying; Sleep 2;
                   CallDownloadInfo ex_srt;
                   Log ERROR (MsgDownloadFailed (lit "/lib/Movie.srt")
                                (Exc "ConnectError"));
                   Log ERROR (MsgProcessFailed (lit "Movie.srt")
                                (RetryError (Exc "ConnectError")));
                   Log INFO (MsgProcessing (lit "Movie.nfo"))] |})
  /\ generate_strm (ex_collab false ex_meta ex_env_none) 1 (lit "/lib") 1
       (ex_world ex_lib)
     = Some (Raised (Exc "ConnectError"),
             {| files := ex_lib;
                remote := 1%nat;
                trace := [Log INFO (MsgDirStart 1);
                          CallIterdir 1;
                          Log CRITICAL
                            (MsgDirFailed 1 (Exc "ConnectError"))] |}).
Proof.
  pose proof (item_failures_are_isolated
                (ex_collab false ex_meta ex_env_none))
    as (_ & _ & Hdl & _ & _ & Hstep & _ & Hlist).
  split; [|split].
  - apply (Hdl ex_srt (lit "/lib") (ex_world ex_lib)
             (RetryError (Exc "ConnectError"))).
    + reflexivity.
    + vm_compute. reflexivity.
  - unfold ex_offline_loop.
    rewrite (Hstep ex_recurse (lit "/lib") ex_srt [ex_nfo] (ex_world ex_lib)
               (RetryError (Exc "ConnectError"))
               (snd (download_file (ex_collab false ex_meta ex_env_none)
                       ex_srt (sub_path_of ex_srt (lit "/lib"))
                       (announced ex_srt (ex_world ex_lib))))
               eq_refl eq_refl ltac:(vm_compute; reflexivity)).
    vm_compute. reflexivity.
  - apply (Hlist O (lit "/lib") 1%Z (ex_world ex_lib) (Exc "ConnectError")
             1%nat).
    reflexivity.
Defined.

(** *** Names that end in a declared extension *)

Lemma startswith_prefix (s p : pystr) :
  startswith s p = true <-> exists t, s = p ++ t.
Proof.
  revert s. induction p as [|a p IH]; intros s.
  - split; [intros _; exists s; reflexivity | intros _; apply startswith_nil].
  - destruct s as [|b s]; simpl.
    + split; [discriminate | intros [t Ht]; discriminate Ht].
    + split.
      * intros H. apply andb_prop in H as [Hab Hs].
        apply N.eqb_eq in Hab. subst b.
        apply IH in Hs as [t ->]. exists t. reflexivity.
      * intros [t Ht]. inversion Ht; subst.
        rewrite N.eqb_refl. simpl. apply IH. exists t. reflexivity.
Qed.

Lemma endswith1_suffix (s p : pystr) :
  endswith1 s p = true <-> exists stem, s = stem ++ p.
Proof.
  unfold endswith1. rewrite startswith_prefix. split.
  - intros [t Ht]. exists (rev t).
    apply (f_equal (@rev N)) in Ht.
    rewrite rev_involutive, rev_app_distr, rev_involutive in Ht. exact Ht.
  - intros [stem ->]. exists (rev stem). apply rev_app_distr.
Qed.

(** The test of the code is the property of the name. *)
Lemma endswith_has_extension (s : pystr) (ps : list pystr) :
  endswith s ps = true <-> has_extension ps s.
Proof.
  unfold endswith, has_extension. rewrite existsb_exists. split.
  - intros (p & Hin & Hp). apply endswith1_suffix in Hp as [stem ->].
    exists stem, p. split; [exact Hin | reflexivity].
  - intros (stem & p & Hin & ->). exists p. split; [exact Hin|].
    apply endswith1_suffix. exists stem. reflexivity.
Qed.

Lemma endswith_no_extension (s : pystr) (ps : list pystr) :
  endswith s ps = false <-> ~ has_extension ps s.
Proof.
  rewrite <- endswith_has_extension.
  destruct (endswith s ps); split; congruence.
Qed.

(** The declared extensions are in lower case. *)
Lemma declared_extension_lower (ext : pystr) :
  In ext (VIDEO_EXTS ++ SUBTITLE_EXTS) ->
  is_ascii ext = true /\ List.map ascii_lower_char ext = ext.
Proof.
  revert ext. apply List.Forall_forall. vm_compute.
  repeat (constructor; [split; reflexivity|]). constructor.
Qed.

(** Lower-casing a name keeps its declared extension: always for a name of
    ASCII characters, and for any name when [str.lower] keeps the
    extensions. *)
Lemma has_extension_lower {R} (E : Collab R) (exts : list pystr)
  (name : pystr) :
  incl exts (VIDEO_EXTS ++ SUBTITLE_EXTS) ->
  is_ascii name = true \/ lower_keeps_extensions E ->
  has_extension exts name ->
  has_extension exts (str_lower E name).
Proof.
  intros Hincl Hcase (stem & ext & Hin & ->).
  destruct (declared_extension_lower ext (Hincl _ Hin)) as [Ha Hl].
  unfold str_lower.
  destruct (is_ascii (stem ++ ext)) eqn:Hascii.
  - exists (List.map ascii_lower_char stem), ext. split; [exact Hin|].
    rewrite List.map_app, Hl. reflexivity.
  - destruct Hcase as [Hc|Hk]; [discriminate Hc|].
    destruct (Hk stem ext (Hincl _ Hin)) as [stem' Hs].
    exists stem', ext. split; [exact Hin | exact Hs].
Qed.



(** C10: for an item whose lower-cased name has neither a video nor a
    subtitle extension, and for a video item under the subtitle-only
    switch, the handler changes nothing and returns [None], which is
    neither [True] nor [False]; the walker, having logged the name of the
    item, goes on with the siblings without a sleep. *)
Theorem ignored_item_returns_none {R} (E : Collab R) (it : item) lp
  (w : World R) :
  (is_video_name E it = false /\ is_subtitle_name E it = false)
  \/ (subtitle_only E = true /\ is_video_name E it = true) ->
  process_item E it lp w = (Returned None, w)
  /\ (None : option bool) <> Some true
  /\ (None : option bool) <> Some false
  /\ (Type_ it = 0%Z ->
      forall recurse siblings,
        walk_items E recurse lp (it :: siblings) w
        = walk_items E recurse lp siblings (announced it w)).
Proof.
  intros H. split; [|split; [|split]].
  - apply process_item_ignored. exact H.
  - discriminate.
  - discriminate.
  - intros Hty recurse siblings.
    rewrite walk_items_file by exact Hty.
    rewrite process_item_ignored by exact H. reflexivity.
Qed.

Lemma ignored_item_returns_none_witness :
  process_item (ex_collab true ex_meta ex_env_none) ex_nfo (lit "/lib")
    (ex_world ex_lib)
  = (Returned None, ex_world ex_lib)
  /\ walk_items (ex_collab true ex_meta ex_env_none) ex_recurse (lit "/lib")
       [ex_nfo] (ex_world ex_lib)
     = Some (Returned tt, announced ex_nfo (ex_world ex_lib)).
Proof.
  pose proof (ignored_item_returns_none
                (ex_collab true ex_meta ex_env_none) ex_nfo (lit "/lib")
                (ex_world ex_lib) (or_introl (conj eq_refl eq_refl)))
    as (H1 & _ & _ & H2).
  split; [exact H1|].
  rewrite (H2 eq_refl ex_recurse []). reflexivity.
Defined.

(** * Further properties of the script *)

(** ** The sanitizer on clean, empty and blank names *)

Lemma is_reserved_false_iff c :
  is_reserved c = false <-> ~ In c reserved_chars.
Proof.
  unfold is_reserved. split.
  - intros H Hin.
    assert (existsb (N.eqb c) reserved_chars = true) as Ht.
    { apply existsb_exists. exists c. split; [exact Hin | apply N.eqb_refl]. }
    congruence.
  - intros H. destruct (existsb (N.eqb c) reserved_chars) eqn:Hx;
      [|reflexivity].
    apply existsb_exists in Hx as (x & Hin & Hx).
    apply N.eqb_eq in Hx. subst x. contradiction.
Qed.

Lemma rstrip_with_nil_iff f s :
  rstrip_with f s = [] <-> Forall (fun c => f c = true) s.
Proof.
  induction s as [|c s IH]; simpl.
  - split; [constructor | reflexivity].
  - destruct (rstrip_with f s) as [|d r] eqn:Hr.
    + destruct (f c) eqn:Hc.
      * split; [|reflexivity]. intros _. constructor; [exact Hc|].
        apply IH. reflexivity.
      * split; [discriminate|]. intros H. inversion H; congruence.
    + split; [discriminate|]. intros H. inversion H as [|? ? ? Hs]; subst.
      apply IH in Hs. discriminate Hs.
Qed.

Lemma lstrip_with_all f s :
  Forall (fun c => f c = true) s -> lstrip_with f s = [].
Proof.
  induction 1 as [|c s Hc Hs IH]; simpl; [reflexivity|].
  rewrite Hc. exact IH.
Qed.

Lemma lstrip_with_suffix f s :
  exists pre, s = pre ++ lstrip_with f s /\ Forall (fun c => f c = true) pre.
Proof.
  induction s as [|c s (pre & Hs & Hpre)]; simpl.
  - exists []. split; [reflexivity | constructor].
  - destruct (f c) eqn:Hc.
    + exists (c :: pre). split; [simpl; f_equal; exact Hs|].
      constructor; assumption.
    + exists []. split; [reflexivity | constructor].
Qed.

Lemma strip_nil_iff s :
  strip s = [] <-> Forall (fun c => isspace c = true) s.
Proof.
  unfold strip. rewrite rstrip_with_nil_iff. split.
  - intros H. destruct (lstrip_with_suffix isspace s) as (pre & Hs & Hpre).
    rewrite Hs. apply Forall_app. split; assumption.
  - intros H. rewrite lstrip_with_all by exact H. constructor.
Qed.

Lemma reserved_space_is_tab c :
  is_reserved c = true -> isspace c = true -> c = 9.
Proof.
  unfold is_reserved. intros Hr Hs.
  apply existsb_exists in Hr as (x & Hin & Hx).
  apply N.eqb_eq in Hx. subst x.
  simpl in Hin.
  repeat (destruct Hin as [<-|Hin]; [try reflexivity; discriminate Hs|]).
  contradiction.
Qed.

(** X1: the names that the sanitizer returns unchanged are exactly the
    clean ones: no reserved character, no white space at either end, at
    most 200 characters. *)
Theorem sanitize_filename_fixed_iff (s : pystr) :
  sanitize_filename s = s <-> clean_name s.
Proof.
  unfold clean_name. split.
  - intros Hfix. split; [|split].
    + rewrite <- Hfix. eapply Forall_impl; [apply sanitize_not_reserved|].
      intros c Hc. apply is_reserved_false_iff. exact Hc.
    + assert (rstrip_with isspace s = s) as Hr.
      { pose proof (sanitize_twice s) as H2. rewrite !Hfix in H2.
        symmetry. exact H2. }
      unfold strip. rewrite lstrip_fixed; [exact Hr|].
      rewrite <- Hfix. apply sanitize_head_not_space.
    + rewrite <- Hfix. apply sanitize_length.
  - intros (Hres & Hstrip & Hlen). unfold sanitize_filename.
    rewrite re_sub_fixed.
    + rewrite Hstrip. apply take_ge. exact Hlen.
    + eapply Forall_impl; [exact Hres|].
      intros c Hc. apply is_reserved_false_iff. exact Hc.
Qed.

(** X2: the sanitizer returns the empty name exactly on the names made of
    white space other than the tab (a tab becomes an underscore). *)
Theorem sanitize_filename_empty_iff (s : pystr) :
  sanitize_filename s = []
  <-> Forall (fun c => isspace c = true /\ c <> 9) s.
Proof.
  unfold sanitize_filename.
  assert (forall l : pystr, take 200 l = [] <-> l = []) as Htake.
  { intros [|c l]; simpl; split; congruence. }
  rewrite Htake, strip_nil_iff. unfold re_sub_reserved.
  rewrite List.Forall_map.
  split; (intros HF; eapply Forall_impl; [exact HF|]); intros c.
  - intros H. cbv beta in H. destruct (is_reserved c) eqn:Hr.
    + vm_compute in H. discriminate H.
    + split; [exact H|]. intros ->. discriminate Hr.
  - intros [Hs Hne]. cbv beta. destruct (is_reserved c) eqn:Hr; [|exact Hs].
    exfalso. apply Hne. apply reserved_space_is_tab; assumption.
Qed.

Lemma sanitize_filename_fixed_iff_witness :
  sanitize_filename (lit "Movie (2020)") = lit "Movie (2020)".
Proof.
  apply (proj2 (sanitize_filename_fixed_iff (lit "Movie (2020)"))).
  split; [|split].
  - apply Forall_forall. intros c Hc. apply is_reserved_false_iff.
    revert c Hc. apply Forall_forall. vm_compute.
    repeat constructor.
  - vm_compute. reflexivity.
  - vm_compute. lia.
Defined.

Lemma sanitize_filename_empty_iff_witness :
  sanitize_filename [32; 10; 12288] = [].
Proof.
  apply (proj2 (sanitize_filename_empty_iff [32; 10; 12288])).
  repeat constructor; discriminate.
Defined.

(** ** The local paths of the items *)

Lemma startswith_sep_no_sep (b : pystr) :
  Forall (fun c => c <> sep) b -> startswith b [sep] = false.
Proof.
  intros H. destruct b as [|c b]; [reflexivity|].
  inversion H as [|? ? Hc _]; subst.
  change (startswith (c :: b) [sep]) with ((sep =? c) && startswith b []).
  destruct (sep =? c) eqn:Heq; [|reflexivity].
  apply N.eqb_eq in Heq. congruence.
Qed.

Lemma os_path_join_relative (a b : pystr) :
  Forall (fun c => c <> sep) b -> os_path_join a b = a ++ joiner a ++ b.
Proof.
  intros H. unfold os_path_join, joiner.
  rewrite startswith_sep_no_sep by exact H.
  destruct ((match a with [] => true | _ => false end) || endswith1 a [sep]);
    reflexivity.
Qed.

Lemma strm_segment_no_sep (s : pystr) :
  Forall (fun c => c <> sep) (sanitize_filename s ++ lit ".strm").
Proof.
  apply Forall_app. split; [apply sanitize_no_sep|].
  vm_compute. repeat constructor; discriminate.
Qed.

Lemma strm_path_of_eq (it : item) (lp : pystr) :
  strm_path_of it lp
  = lp ++ joiner lp
    ++ sanitize_filename (fst (os_path_splitext (FileName it)))
    ++ lit ".strm".
Proof.
  unfold strm_path_of. apply os_path_join_relative.
  apply strm_segment_no_sep.
Qed.

Lemma sub_path_of_eq (it : item) (lp : pystr) :
  sub_path_of it lp = lp ++ joiner lp ++ sanitize_filename (FileName it).
Proof.
  unfold sub_path_of. apply os_path_join_relative. apply sanitize_no_sep.
Qed.

(** X3: the local path of a pointer file, of a subtitle and of a
    sub-directory is the local directory, the separator that
    [os.path.join] adds when the directory does not end in one, and one
    segment without separators: the sanitized base name with [.strm], or
    the sanitized name. A remote name never makes the path absolute or
    adds a level. *)
Theorem local_paths_one_below (it : item) (lp : pystr) :
  strm_path_of it lp
  = lp ++ joiner lp
    ++ sanitize_filename (fst (os_path_splitext (FileName it)))
    ++ lit ".strm"
  /\ sub_path_of it lp = lp ++ joiner lp ++ sanitize_filename (FileName it)
  /\ one_below lp (strm_path_of it lp)
  /\ one_below lp (sub_path_of it lp).
Proof.
  pose proof (strm_path_of_eq it lp) as H1.
  pose proof (sub_path_of_eq it lp) as H2.
  split; [exact H1|]. split; [exact H2|]. split.
  - rewrite H1. eexists. split; [apply strm_segment_no_sep|].
    unfold joiner. destruct (_ || _); simpl; [left | right]; reflexivity.
  - rewrite H2. eexists. split; [apply sanitize_no_sep|].
    unfold joiner. destruct (_ || _); simpl; [left | right]; reflexivity.
Qed.

Lemma rfind_from_none c (s : pystr) : forall i acc,
  Forall (fun x => x <> c) s -> rfind_from c s i acc = acc.
Proof.
  induction s as [|x s IH]; intros i acc H; simpl; [reflexivity|].
  inversion H as [|? ? Hx Hs]; subst.
  rewrite IH by exact Hs.
  destruct (x =? c) eqn:Heq; [|reflexivity].
  apply N.eqb_eq in Heq. congruence.
Qed.

Lemma rfind_from_last c (a seg : pystr) : forall i acc,
  Forall (fun x => x <> c) seg ->
  rfind_from c (a ++ c :: seg) i acc = (i + Z.of_nat (length a))%Z.
Proof.
  induction a as [|x a IH]; intros i acc H; simpl.
  - rewrite N.eqb_refl. rewrite rfind_from_none by exact H. lia.
  - rewrite IH by exact H. lia.
Qed.

Lemma rstrip_with_snoc_drop f (a : pystr) c :
  f c = true -> rstrip_with f (a ++ [c]) = rstrip_with f a.
Proof.
  intros Hc. induction a as [|x a IH]; simpl.
  - rewrite Hc. reflexivity.
  - rewrite IH. reflexivity.
Qed.

Lemma rstrip_with_snoc_keep f (a : pystr) c :
  f c = false -> rstrip_with f (a ++ [c]) = a ++ [c].
Proof.
  intros Hc. induction a as [|x a IH]; simpl.
  - rewrite Hc. reflexivity.
  - rewrite IH. destruct (a ++ [c]) eqn:Ha; [|reflexivity].
    destruct a; discriminate Ha.
Qed.

(** A directory name that is not empty and does not end in a separator. *)
Lemma no_trailing_sep_snoc (lp : pystr) :
  lp <> [] -> endswith1 lp [sep] = false ->
  exists a x, lp = a ++ [x] /\ x <> sep.
Proof.
  intros Hne Hend.
  destruct (rev lp) as [|x r] eqn:Hrev.
  - apply (f_equal (@rev N)) in Hrev. rewrite rev_involutive in Hrev.
    contradiction.
  - exists (rev r), x. split.
    + apply (f_equal (@rev N)) in Hrev. rewrite rev_involutive in Hrev.
      exact Hrev.
    + unfold endswith1 in Hend. rewrite Hrev in Hend.
      intros ->.
      change (startswith (sep :: r) (rev [sep]))
        with ((sep =? sep) && startswith r []) in Hend.
      rewrite N.eqb_refl, startswith_nil in Hend. discriminate Hend.
Qed.

Lemma os_path_dirname_child (lp seg : pystr) :
  lp <> [] -> endswith1 lp [sep] = false ->
  Forall (fun c => c <> sep) seg ->
  os_path_dirname (lp ++ sep :: seg) = lp.
Proof.
  intros Hne Hend Hseg.
  destruct (no_trailing_sep_snoc lp Hne Hend) as (a & x & -> & Hx).
  unfold os_path_dirname, rfind.
  rewrite rfind_from_last by exact Hseg.
  unfold slice_to.
  replace (Z.to_nat (0 + Z.of_nat (length (a ++ [x])) + 1))
    with (length ((a ++ [x]) ++ [sep])) by (rewrite !length_app; simpl; lia).
  replace ((a ++ [x]) ++ sep :: seg) with (((a ++ [x]) ++ [sep]) ++ seg)
    by (rewrite <- !app_assoc; reflexivity).
  rewrite take_app_length.
  assert (forallb (N.eqb sep) ((a ++ [x]) ++ [sep]) = false) as Hall.
  { assert ((sep =? x) = false) as Hsx.
    { destruct (sep =? x) eqn:Heq; [|reflexivity].
      apply N.eqb_eq in Heq. congruence. }
    rewrite !forallb_app. cbn [forallb]. rewrite Hsx. cbn [andb].
    rewrite andb_false_r. reflexivity. }
  rewrite Hall.
  destruct ((a ++ [x]) ++ [sep]) eqn:Hl.
  { destruct a; discriminate Hl. }
  rewrite <- Hl. simpl negb. cbv iota.
  rewrite rstrip_with_snoc_drop by apply N.eqb_refl.
  apply rstrip_with_snoc_keep.
  destruct (sep =? x) eqn:Heq; [|reflexivity].
  apply N.eqb_eq in Heq. congruence.
Qed.

(** X4: when the local directory is not empty and does not end in a
    separator, the directory that [download_file] creates for a subtitle
    is the local directory itself. *)
Theorem sub_path_dirname (it : item) (lp : pystr) :
  lp <> [] -> endswith1 lp [sep] = false ->
  os_path_dirname (sub_path_of it lp) = lp.
Proof.
  intros Hne Hend.
  rewrite sub_path_of_eq.
  unfold joiner. rewrite Hend.
  destruct lp as [|c lp]; [contradiction|]. simpl orb. cbv iota.
  apply (os_path_dirname_child (c :: lp)); try assumption.
  apply sanitize_no_sep.
Qed.

Lemma sub_path_dirname_witness :
  os_path_dirname (sub_path_of ex_srt (lit "/lib")) = lit "/lib".
Proof.
  apply (sub_path_dirname ex_srt (lit "/lib")).
  - discriminate.
  - reflexivity.
Defined.

(** ** Reasoning about runs *)

Section Runs.

Context {R : Type} (E : Collab R).

Lemma wp_bind {A B} (m : M R A) (k : A -> M R B) w Q :
  wp m w (fun o w1 =>
            match o with
            | Returned a => wp (k a) w1 Q
            | Raised e => Q (Raised e) w1
            end) ->
  wp (bind m k) w Q.
Proof.
  unfold wp, bind. destruct (m w) as [[a|e] w1]; simpl; auto.
Qed.

Lemma wp_try_except {A} (m : M R A) (h : exn -> M R A) w Q :
  wp m w (fun o w1 =>
            match o with
            | Returned a => Q (Returned a) w1
            | Raised e => wp (h e) w1 Q
            end) ->
  wp (try_except m h) w Q.
Proof.
  unfold wp, try_except. destruct (m w) as [[a|e] w1]; simpl; auto.
Qed.

Lemma wp_ret {A} (a : A) (w : World R) Q :
  Q (Returned a) w -> wp (ret a) w Q.
Proof. auto. Qed.

Lemma wp_raise {A} e (w : World R) (Q : outcome A -> World R -> Prop) :
  Q (Raised e) w -> wp (raise e) w Q.
Proof. auto. Qed.

Lemma wp_logger lvl msg (w : World R) Q :
  Q (Returned tt) (emit (Log lvl msg) w) -> wp (logger lvl msg) w Q.
Proof. auto. Qed.

Lemma wp_time_sleep s (w : World R) Q :
  Q (Returned tt) (emit (Sleep s) w) -> wp (time_sleep s) w Q.
Proof. auto. Qed.

Lemma wp_call {A} ev (f : R -> outcome A * R) (w : World R) Q :
  (forall o r, f (remote w) = (o, r) -> Q o (set_remote r (emit ev w))) ->
  wp (call ev f) w Q.
Proof.
  intros H. unfold wp, call. simpl.
  destruct (f (remote w)) as [o r] eqn:Hf. simpl. apply H. reflexivity.
Qed.

Lemma wp_os_path_exists p (w : World R) Q :
  Q (Returned (bool_decide (is_Some (files w !! p)))) w ->
  wp (os_path_exists p) w Q.
Proof. auto. Qed.

Lemma wp_raise_if o (w : World R) Q :
  match o with
  | Some e => Q (Raised e) w
  | None => Q (Returned tt) w
  end ->
  wp (raise_if o) w Q.
Proof. destruct o; auto. Qed.

Lemma wp_lift_outcome {A} (o : outcome A) (w : World R) Q :
  Q o w -> wp (lift_outcome o) w Q.
Proof. auto. Qed.

Lemma wp_io op (w : World R) Q :
  match io_fault E (files w) op with
  | Some e => Q (Raised e) w
  | None => Q (Returned tt) w
  end ->
  wp (io E op) w Q.
Proof. unfold wp, io. destruct (io_fault E (files w) op); auto. Qed.

Lemma wp_consequence {A} (m : M R A) w (Q Q' : outcome A -> World R -> Prop) :
  wp m w Q -> (forall o w', Q o w' -> Q' o w') -> wp m w Q'.
Proof. unfold wp. auto. Qed.

End Runs.

(** ** What the downloader keeps *)

Lemma extends_files_refl fs : extends_files fs fs.
Proof.
  intros q. destruct (fs !! q) as [[c|]|]; auto.
  exists []. rewrite app_nil_r. reflexivity.
Qed.

Lemma extends_files_trans fs1 fs2 fs3 :
  extends_files fs1 fs2 -> extends_files fs2 fs3 -> extends_files fs1 fs3.
Proof.
  intros H12 H23 q. specialize (H12 q). specialize (H23 q).
  destruct (fs1 !! q) as [[c|]|]; auto.
  - destruct H12 as [x Hx]. rewrite Hx in H23. destruct H23 as [y Hy].
    exists (x ++ y). rewrite Hy, app_assoc. reflexivity.
  - rewrite H12 in H23. exact H23.
Qed.

Lemma extends_files_insert_new fs p n :
  fs !! p = None -> extends_files fs (<[p := n]> fs).
Proof.
  intros Hp q. destruct (decide (p = q)) as [<-|Hne].
  - rewrite Hp. exact I.
  - rewrite lookup_insert_ne by exact Hne.
    destruct (fs !! q) as [[c|]|]; auto.
    exists []. rewrite app_nil_r. reflexivity.
Qed.

Lemma extends_files_append fs p c extra :
  fs !! p = Some (File c) ->
  extends_files fs (<[p := File (c ++ extra)]> fs).
Proof.
  intros Hp q. destruct (decide (p = q)) as [<-|Hne].
  - rewrite Hp. exists extra. apply lookup_insert_eq.
  - rewrite lookup_insert_ne by exact Hne.
    destruct (fs !! q) as [[c'|]|]; auto.
    exists []. rewrite app_nil_r. reflexivity.
Qed.

Section Keeping.

Context {R : Type} (E : Collab R).

Lemma os_makedirs_extends d (w : World R) :
  extends_files (files w) (files (snd (os_makedirs E d w))).
Proof.
  unfold os_makedirs, bind, io.
  destruct (io_fault E (files w) (OpMakedirs d)); simpl;
    [apply extends_files_refl|].
  destruct d as [|c d]; simpl; [apply extends_files_refl|].
  destruct (files w !! (c :: d)) as [[x|]|] eqn:Hd; simpl;
    try apply extends_files_refl.
  apply extends_files_insert_new. exact Hd.
Qed.

(** Writing chunks to a file appends some of them: all, or those before
    the write that failed. *)
Lemma write_chunks_partial p cs : forall (w : World R) c,
  files w !! p = Some (File c) ->
  exists extra,
    files (snd (write_chunks E p cs w)) = <[p := File (c ++ extra)]> (files w).
Proof.
  induction cs as [|chunk cs IH]; intros w c Hp; simpl.
  - exists []. rewrite app_nil_r. rewrite insert_id by exact Hp.
    reflexivity.
  - unfold bind at 1. unfold file_write, bind, io.
    destruct (io_fault E (files w) (OpWrite p chunk)); simpl.
    + exists []. rewrite app_nil_r. rewrite insert_id by exact Hp.
      reflexivity.
    + rewrite Hp.
      destruct (IH (set_files (<[p := File (c ++ chunk)]> (files w)) w)
                  (c ++ chunk)) as [extra Hextra].
      { simpl. apply lookup_insert_eq. }
      exists (chunk ++ extra). rewrite Hextra. simpl.
      rewrite insert_insert_eq. rewrite <- app_assoc. reflexivity.
Qed.

Lemma open_file_append_files p c (w : World R) :
  files w !! p = Some (File c) ->
  files (snd (open_file E p ModeAB w)) = files w.
Proof.
  intros Hp. unfold open_file, bind, io.
  destruct (io_fault E (files w) (OpOpen p ModeAB)); simpl; [reflexivity|].
  rewrite Hp. reflexivity.
Qed.

(** The steps of an attempt after the response has come: open, write,
    report. Over an existing file opened for appending, and over no file
    opened for writing, what was there is kept. *)
Lemma transfer_extends p (resp : response) (w : World R) mode :
  (exists c, files w !! p = Some (File c) /\ mode = ModeAB)
  \/ files w !! p = Some Dir
  \/ (files w !! p = None /\ mode = ModeWB) ->
  wp (open_file E p mode ;;;
      write_chunks E p (chunks resp) ;;;
      raise_if (stream_error resp) ;;;
      logger INFO (MsgDownloadDone p) ;;;
      ret true) w
     (fun _ w' => extends_files (files w) (files w')).
Proof.
  intros Hcase.
  assert (forall (w1 : World R) c,
            files w1 !! p = Some (File c) ->
            extends_files (files w) (files w1) ->
            wp (write_chunks E p (chunks resp) ;;;
                raise_if (stream_error resp) ;;;
                logger INFO (MsgDownloadDone p) ;;;
                ret true) w1
               (fun _ w' => extends_files (files w) (files w'))) as Hrest.
  { intros w1 c Hp1 Hext.
    destruct (write_chunks_partial p (chunks resp) w1 c Hp1)
      as [extra Hextra].
    assert (extends_files (files w)
              (files (snd (write_chunks E p (chunks resp) w1)))) as Hw.
    { rewrite Hextra. eapply extends_files_trans; [exact Hext|].
      apply extends_files_append. exact Hp1. }
    unfold wp, bind.
    destruct (write_chunks E p (chunks resp) w1) as [[u|e] w2];
      simpl in *; [|exact Hw].
    destruct (stream_error resp); simpl; exact Hw. }
  unfold wp. unfold bind at 1. unfold open_file, bind at 1, io.
  destruct (io_fault E (files w) (OpOpen p mode)); simpl;
    [apply extends_files_refl|].
  destruct Hcase as [(c & Hp & ->)|[Hp|(Hp & ->)]]; rewrite Hp; simpl.
  - apply (Hrest w c Hp). apply extends_files_refl.
  - apply extends_files_refl.
  - apply (Hrest (set_files (<[p := File []]> (files w)) w) []).
    + simpl. apply lookup_insert_eq.
    + simpl. apply extends_files_insert_new. exact Hp.
Qed.

(** One attempt keeps every file and directory, and every byte of a file
    that was there. *)
Lemma download_file_body_extends (it : item) p (w : World R) :
  extends_files (files w) (files (snd (download_file_body E it p w))).
Proof.
  change (wp (download_file_body E it p) w
             (fun _ w' => extends_files (files w) (files w'))).
  unfold download_file_body. apply wp_try_except.
  eapply wp_consequence
    with (Q := fun _ w' => extends_files (files w) (files w')).
  2: { intros [a|e] w' H; [exact H|]. unfold wp. simpl. exact H. }
  apply wp_bind, wp_call. intros [url|e] r1 _; [|apply extends_files_refl].
  apply wp_bind.
  pose proof (os_makedirs_extends (os_path_dirname p)
                (set_remote r1 (emit (CallDownloadInfo it) w))) as Hmk.
  unfold wp at 1.
  destruct (os_makedirs E (os_path_dirname p) _) as [[u|e] w2];
    simpl in Hmk; simpl fst; simpl snd; cbv iota; [|exact Hmk].
  eapply wp_consequence
    with (Q := fun _ w' => extends_files (files w2) (files w')).
  2: { intros o w' H. eapply extends_files_trans; [exact Hmk | exact H]. }
  clear Hmk.
  apply wp_bind, wp_os_path_exists.
  destruct (files w2 !! p) as [[c|]|] eqn:Hp.
  - rewrite bool_decide_eq_true_2 by eauto.
    apply wp_bind, wp_bind. unfold wp at 1, os_path_getsize. rewrite Hp.
    simpl fst; simpl snd; cbv iota.
    destruct (Z.of_nat (length c) =? Size it)%Z.
    + apply wp_bind, wp_logger, wp_ret, wp_ret. apply extends_files_refl.
    + apply wp_bind, wp_logger, wp_ret.
      apply wp_bind, wp_os_path_exists. simpl files. rewrite Hp.
      rewrite bool_decide_eq_true_2 by eauto.
      apply wp_bind, wp_bind. unfold wp at 1, os_path_getsize.
      simpl files. rewrite Hp. simpl fst; simpl snd; cbv iota.
      apply wp_ret.
      apply wp_bind, wp_call. intros [resp|e] r2 _;
        [|apply extends_files_refl].
      apply wp_bind, wp_raise_if.
      destruct (status_error resp); [apply extends_files_refl|].
      apply wp_bind, wp_lift_outcome.
      destruct (content_length_int resp); [|apply extends_files_refl].
      rewrite range_headers_not_empty.
      eapply wp_consequence; [apply transfer_extends|].
      * left. exists c. split; [exact Hp | reflexivity].
      * intros o w' H. exact H.
  - rewrite bool_decide_eq_true_2 by eauto.
    apply wp_bind, wp_bind. unfold wp at 1, os_path_getsize. rewrite Hp.
    simpl fst; simpl snd; cbv iota.
    destruct (dir_st_size E =? Size it)%Z.
    + apply wp_bind, wp_logger, wp_ret, wp_ret. apply extends_files_refl.
    + apply wp_bind, wp_logger, wp_ret.
      apply wp_bind, wp_os_path_exists. simpl files. rewrite Hp.
      rewrite bool_decide_eq_true_2 by eauto.
      apply wp_bind, wp_bind. unfold wp at 1, os_path_getsize.
      simpl files. rewrite Hp. simpl fst; simpl snd; cbv iota.
      apply wp_ret.
      apply wp_bind, wp_call. intros [resp|e] r2 _;
        [|apply extends_files_refl].
      apply wp_bind, wp_raise_if.
      destruct (status_error resp); [apply extends_files_refl|].
      apply wp_bind, wp_lift_outcome.
      destruct (content_length_int resp); [|apply extends_files_refl].
      eapply wp_consequence; [apply transfer_extends|].
      * right. left. exact Hp.
      * intros o w' H. exact H.
  - rewrite bool_decide_eq_false_2 by (intros [x Hx]; discriminate Hx).
    apply wp_bind, wp_ret.
    apply wp_bind, wp_os_path_exists. rewrite Hp.
    rewrite bool_decide_eq_false_2 by (intros [x Hx]; discriminate Hx).
    apply wp_bind, wp_ret.
    apply wp_bind, wp_call. intros [resp|e] r2 _;
      [|apply extends_files_refl].
    apply wp_bind, wp_raise_if.
    destruct (status_error resp); [apply extends_files_refl|].
    apply wp_bind, wp_lift_outcome.
    destruct (content_length_int resp); [|apply extends_files_refl].
    rewrite bool_decide_eq_true_2 by reflexivity.
    eapply wp_consequence; [apply transfer_extends|].
    * right. right. split; [exact Hp | reflexivity].
    * intros o w' H. exact H.
Qed.

End Keeping.

Section DownloadMore.

Context {R : Type} (E : Collab R).

Lemma retry_from_extends {A} (fn : M R A) wait :
  (forall w, extends_files (files w) (files (snd (fn w)))) ->
  forall left n (w : World R),
    extends_files (files w)
      (files (snd (retry_from left n wait (logger WARNING MsgRetrying) fn w))).
Proof.
  intros Hfn. induction left as [|left IH]; intros n w; simpl;
    unfold try_except; specialize (Hfn w);
    destruct (fn w) as [[a|e] w1]; simpl in *; try exact Hfn.
  unfold bind, logger, time_sleep. simpl.
  eapply extends_files_trans; [exact Hfn|].
  apply (IH (S n) (emit (Sleep (wait n)) (emit (Log WARNING MsgRetrying) w1))).
Qed.

Lemma wp_any {A} (m : M R A) (w : World R) Q :
  (forall o w1, Q o w1) -> wp m w Q.
Proof. unfold wp. auto. Qed.

(** An attempt that returns, returns [True]. *)
Lemma download_file_body_true (it : item) p (w : World R) :
  wp (download_file_body E it p) w
     (fun o _ => match o with Returned b => b = true | Raised _ => True end).
Proof.
  unfold download_file_body. apply wp_try_except.
  eapply wp_consequence
    with (Q := fun o _ => match o with
                          | Returned b => b = true
                          | Raised _ => True
                          end).
  2: { intros [a|e] w' H; [exact H|]. unfold wp. simpl. exact I. }
  apply wp_bind, wp_any. intros [url|e] w1; [|exact I].
  apply wp_bind, wp_any. intros [u|e] w2; [|exact I].
  apply wp_bind, wp_any. intros [ex|e] w3; [|exact I].
  apply wp_bind.
  assert (forall w4 : World R,
            wp (e' <- os_path_exists p ;;
                headers <-
                  (if e' then
                     local_size <- os_path_getsize E p ;;
                     ret (range_headers local_size)
                   else ret (empty : gmap pystr pystr)) ;;
                resp <- call (HttpGet url headers)
                             (fun r => session_stream E r url headers) ;;
                raise_if (status_error resp) ;;;
                total_size <- lift_outcome (content_length_int resp) ;;
                let mode :=
                  if bool_decide (headers = empty) then ModeWB else ModeAB in
                open_file E p mode ;;;
                write_chunks E p (chunks resp) ;;;
                raise_if (stream_error resp) ;;;
                logger INFO (MsgDownloadDone p) ;;;
                ret true) w4
               (fun o _ => match o with
                           | Returned b => b = true
                           | Raised _ => True
                           end)) as Hrest.
  { intros w4.
    apply wp_bind, wp_any. intros [e'|e] w5; [|exact I].
    apply wp_bind, wp_any. intros [headers|e] w6; [|exact I].
    apply wp_bind, wp_any. intros [resp|e] w7; [|exact I].
    apply wp_bind, wp_any. intros [u1|e] w8; [|exact I].
    apply wp_bind, wp_any. intros [n|e] w9; [|exact I].
    apply wp_bind, wp_any. intros [u2|e] w10; [|exact I].
    apply wp_bind, wp_any. intros [u3|e] w11; [|exact I].
    apply wp_bind, wp_any. intros [u4|e] w12; [|exact I].
    apply wp_bind, wp_any. intros [u5|e] w13; [|exact I].
    apply wp_ret. reflexivity. }
  destruct ex.
  - apply wp_bind, wp_any. intros [sz|e] w4; [|exact I].
    destruct (sz =? Size it)%Z.
    + apply wp_bind, wp_logger, wp_ret, wp_ret. reflexivity.
    + apply wp_bind, wp_logger, wp_ret. apply Hrest.
  - apply wp_ret. apply Hrest.
Qed.

Lemma retry_from_true wait bs (fn : M R bool) :
  (forall w, wp fn w (fun o _ => match o with
                                 | Returned b => b = true
                                 | Raised _ => True
                                 end)) ->
  forall left n (w : World R),
    wp (retry_from left n wait bs fn) w
       (fun o _ => match o with Returned b => b = true | Raised _ => True end).
Proof.
  intros Hfn. induction left as [|left IH]; intros n w; simpl;
    apply wp_try_except; (eapply wp_consequence; [apply Hfn|]);
    intros [b|e] w1 H; try exact H.
  apply wp_bind, wp_any. intros [u|e1] w2; [|exact I].
  apply wp_bind, wp_any. intros [u1|e1] w3; [|exact I].
  apply IH.
Qed.

End DownloadMore.

(** X5: a download, with all of its attempts and whatever their outcome,
    removes no file or directory and keeps every byte that a file had: an
    existing partial file is only ever appended to. *)
Theorem download_file_keeps_bytes {R} (E : Collab R) (it : item) p
  (w : World R) :
  extends_files (files w) (files (snd (download_file E it p w)))
  /\ forall old,
       files w !! p = Some (File old) ->
       exists extra,
         files (snd (download_file E it p w)) !! p
         = Some (File (old ++ extra)).
Proof.
  assert (extends_files (files w) (files (snd (download_file E it p w))))
    as H.
  { unfold download_file, retry. apply retry_from_extends.
    intros w0. apply download_file_body_extends. }
  split; [exact H|].
  intros old Hold. specialize (H p). rewrite Hold in H. exact H.
Qed.

Lemma download_file_keeps_bytes_witness :
  exists extra,
    files (snd (download_file (ex_collab false ex_meta ex_env_none) ex_srt
                  (lit "/lib/Movie.srt")
                  (ex_world (ex_lib_with_srt (take 2 ex_srt_bytes)))))
    !! lit "/lib/Movie.srt"
    = Some (File (take 2 ex_srt_bytes ++ extra)).
Proof.
  apply (proj2 (download_file_keeps_bytes
                  (ex_collab false ex_meta ex_env_none) ex_srt
                  (lit "/lib/Movie.srt")
                  (ex_world (ex_lib_with_srt (take 2 ex_srt_bytes))))).
  reflexivity.
Defined.

(** X6: the only value a download returns is [True]; so for a subtitle
    item the handler returns [True] when the download returns and
    [False], with an error logged, when the download raises, and never
    [None]. *)
Theorem subtitle_result {R} (E : Collab R) (it : item) lp (w : World R) :
  is_subtitle_name E it = true ->
  process_item E it lp w
  = match download_file E it (sub_path_of it lp) w with
    | (Returned _, w1) => (Returned (Some true), w1)
    | (Raised e, w1) =>
        (Returned (Some false),
         emit (Log ERROR (MsgProcessFailed (FileName it) e)) w1)
    end.
Proof.
  intros Hsub. rewrite process_item_subtitle by exact Hsub.
  pose proof (retry_from_true (wait_exponential 1 2 10)
                (logger WARNING MsgRetrying)
                (download_file_body E it (sub_path_of it lp))
                (fun w0 => download_file_body_true E it _ w0)
                (MAX_RETRIES - 1)%nat 1%nat w) as Htrue.
  unfold wp in Htrue. fold (retry MAX_RETRIES (wait_exponential 1 2 10)
                              (logger WARNING MsgRetrying)
                              (download_file_body E it (sub_path_of it lp)))
    in Htrue.
  fold (download_file E it (sub_path_of it lp)) in Htrue.
  unfold try_except, bind.
  destruct (download_file E it (sub_path_of it lp) w) as [[b|e] w1];
    simpl in *; [subst b|]; reflexivity.
Qed.

Lemma subtitle_result_witness :
  process_item (ex_collab true ex_meta ex_env_none) ex_srt (lit "/lib")
    (ex_world ex_lib)
  = (Returned (Some true),
     snd (download_file (ex_collab true ex_meta ex_env_none) ex_srt
            (lit "/lib/Movie.srt") (ex_world ex_lib))).
Proof.
  rewrite (subtitle_result (ex_collab true ex_meta ex_env_none) ex_srt
             (lit "/lib") (ex_world ex_lib) eq_refl).
  vm_compute. reflexivity.
Defined.

Section Interrupted.

Context {R : Type} (E : Collab R).

(** An attempt over no local file whose stream breaks: what came is in
    the file, the error is logged and the exception raised. *)
Lemma download_file_body_fresh_interrupted it p (w : World R)
  url r1 resp r2 n e :
  files w !! p = None ->
  dir_ready E (files w) (os_path_dirname p) ->
  client_download_info E (remote w) it = (Returned url, r1) ->
  session_stream E r1 url empty = (Returned resp, r2) ->
  status_error resp = None ->
  content_length_int resp = Returned n ->
  stream_error resp = Some e ->
  no_fault_on E p ->
  download_file_body E it p w
  = (Raised e,
     {| files := <[p := File (concat (chunks resp))]> (files w);
        remote := r2;
        trace := trace w
                 ++ [CallDownloadInfo it;
                     HttpGet url empty;
                     Log ERROR (MsgDownloadFailed p e)] |}).
Proof.
  intros Hp Hdir Hinfo Hget Hst Hcl Hse Hnf.
  unfold download_file_body, try_except.
  unfold bind at 1. unfold call. simpl. rewrite Hinfo.
  unfold bind at 1. rewrite os_makedirs_ready by exact Hdir.
  unfold bind at 1. rewrite (os_path_exists_none p) by exact Hp.
  unfold bind at 1. unfold ret at 1.
  unfold bind at 1. rewrite (os_path_exists_none p) by exact Hp.
  unfold bind at 1. unfold ret at 1.
  unfold bind at 1. unfold call. simpl. rewrite Hget.
  unfold bind at 1. rewrite Hst. unfold raise_if at 1, ret at 1.
  unfold bind at 1. rewrite Hcl. unfold lift_outcome at 1.
  rewrite bool_decide_eq_true_2 by reflexivity.
  unfold bind at 1. unfold open_file, bind, io. simpl.
  rewrite (proj1 (Hnf _)). simpl. rewrite Hp.
  erewrite write_chunks_appends with (content := []);
    [ | simpl; apply lookup_insert_eq | intros fs data; apply (proj2 (Hnf fs))].
  rewrite Hse. unfold raise_if, raise, ret, logger, emit, set_files,
                 set_remote.
  simpl. rewrite insert_insert_eq.
  repeat rewrite <- app_assoc. reflexivity.
Qed.

End Interrupted.

(** X7: a download over no local file whose stream breaks after some
    bytes keeps those bytes, logs the error, warns, sleeps 2 seconds and
    tries again; the second attempt asks for the bytes after the ones it
    has, and with a good response the download returns [True] with the
    bytes of both responses in the file. *)
Theorem interrupted_download_resumes {R} (E : Collab R) (it : item) p
  (w : World R) url1 r1 resp1 r2 n1 e url2 r3 resp2 r4 n2 :
  files w !! p = None ->
  os_path_dirname p <> [] ->
  files w !! os_path_dirname p = Some Dir ->
  (forall fs, io_fault E fs (OpMakedirs (os_path_dirname p)) = None) ->
  no_fault_on E p ->
  client_download_info E (remote w) it = (Returned url1, r1) ->
  session_stream E r1 url1 empty = (Returned resp1, r2) ->
  status_error resp1 = None ->
  content_length_int resp1 = Returned n1 ->
  stream_error resp1 = Some e ->
  Z.of_nat (length (concat (chunks resp1))) <> Size it ->
  client_download_info E r2 it = (Returned url2, r3) ->
  session_stream E r3 url2
    (range_headers (Z.of_nat (length (concat (chunks resp1)))))
  = (Returned resp2, r4) ->
  status_error resp2 = None ->
  content_length_int resp2 = Returned n2 ->
  stream_error resp2 = None ->
  download_file E it p w
  = (Returned true,
     {| files := <[p := File (concat (chunks resp1)
                                ++ concat (chunks resp2))]> (files w);
        remote := r4;
        trace := trace w
                 ++ [CallDownloadInfo it;
                     HttpGet url1 empty;
                     Log ERROR (MsgDownloadFailed p e);
                     Log WARNING MsgRetrying;
                     Sleep 2;
                     CallDownloadInfo it;
                     Log INFO (MsgPartialFound p
                                 (Z.of_nat (length (concat (chunks resp1))))
                                 (Size it));
                     HttpGet url2
                       (range_headers
                          (Z.of_nat (length (concat (chunks resp1)))));
                     Log INFO (MsgDownloadDone p)] |}).
Proof.
  intros Hp Hdne Hd Hmk Hnf Hinfo1 Hget1 Hst1 Hcl1 Hse1 Hlen Hinfo2 Hget2
    Hst2 Hcl2 Hse2.
  assert (os_path_dirname p <> p) as Hne.
  { intros Heq. rewrite Heq in Hd. congruence. }
  unfold download_file, retry. simpl.
  unfold try_except at 1.
  rewrite (download_file_body_fresh_interrupted E it p w url1 r1 resp1 r2
             n1 e); try assumption.
  2: { repeat split; [exact Hdne | exact Hd | apply Hmk]. }
  unfold bind at 1. unfold logger at 1.
  unfold bind at 1. unfold time_sleep at 1.
  change (wait_exponential 1 2 10 1) with 2%Z.
  unfold try_except at 1.
  erewrite (download_file_body_resume E it p _ (concat (chunks resp1))
              url2 r3 resp2 r4 n2).
  - simpl. rewrite insert_insert_eq.
    repeat rewrite <- app_assoc. reflexivity.
  - simpl. apply lookup_insert_eq.
  - exact Hlen.
  - simpl. split; [exact Hdne|]. split; [|apply Hmk].
    rewrite lookup_insert_ne by (intros Heq; apply Hne; symmetry; exact Heq).
    exact Hd.
  - simpl. exact Hinfo2.
  - exact Hget2.
  - exact Hst2.
  - exact Hcl2.
  - exact Hse2.
  - exact Hnf.
Qed.

Lemma interrupted_download_resumes_witness :
  exists w',
    download_file ex_collab_flaky ex_srt (lit "/lib/Movie.srt")
      (ex_world ex_lib)
    = (Returned true, w')
    /\ files w' !! lit "/lib/Movie.srt" = Some (File ex_srt_bytes).
Proof.
  eexists. split.
  - apply (interrupted_download_resumes ex_collab_flaky ex_srt
             (lit "/lib/Movie.srt") (ex_world ex_lib)
             ex_url 1%nat ex_broken_response 2%nat 5%Z (Exc "ReadError")
             ex_url 3%nat (ex_response (drop 2 ex_srt_bytes)) 4%nat 3%Z).
    + reflexivity.
    + vm_compute. discriminate.
    + reflexivity.
    + intros fs. reflexivity.
    + intros fs. split; reflexivity.
    + reflexivity.
    + reflexivity.
    + reflexivity.
    + reflexivity.
    + reflexivity.
    + vm_compute. discriminate.
    + reflexivity.
    + vm_compute. reflexivity.
    + reflexivity.
    + reflexivity.
    + reflexivity.
  - vm_compute. reflexivity.
Defined.

(** ** More on the pointer file *)

Section PointerMore.

Context {R : Type} (E : Collab R).

(** The pointer file is opened but the line cannot be written: the
    exception leaves an empty file behind. *)
Lemma generate_strm_file_write_fails (it : item) lp (w : World R)
  data rest r1 e :
  files w !! strm_path_of it lp = None ->
  client_fs_info E (remote w) (FileId it) = (Returned (data :: rest), r1) ->
  first_missing E data = None ->
  io_fault E (files w) (OpOpen (strm_path_of it lp) ModeW) = None ->
  (utf8_encode (strm_url it data) = None /\ e = Exc "UnicodeEncodeError")
  \/ (exists bytes,
        utf8_encode (strm_url it data) = Some bytes
        /\ io_fault E (<[strm_path_of it lp := File []]> (files w))
             (OpWrite (strm_path_of it lp) bytes) = Some e) ->
  generate_strm_file E it lp w
  = (Raised e,
     {| files := <[strm_path_of it lp := File []]> (files w);
        remote := r1;
        trace := trace w ++ [CallFsInfo (FileId it)] |}).
Proof.
  intros Hp Hinfo Hmiss Hopen Hfail.
  unfold generate_strm_file.
  unfold bind at 1. unfold os_path_exists at 1.
  rewrite (regenerate_condition E w _ (or_introl Hp)).
  unfold bind at 1. unfold call. simpl. rewrite Hinfo.
  unfold bind at 1. unfold first_info, ret at 1.
  rewrite Hmiss.
  unfold bind at 1. unfold open_file, bind, io. simpl.
  rewrite Hopen. simpl. rewrite Hp.
  unfold file_write_text.
  destruct Hfail as [[Hutf ->]|(bytes & Hutf & Hw)]; rewrite Hutf.
  - reflexivity.
  - unfold file_write, bind, io. simpl. rewrite Hw. reflexivity.
Qed.

End PointerMore.

(** X8: when the pointer file of a video is opened but its line cannot be
    written (the name has a code point that UTF-8 cannot encode, or the
    write fails), the handler returns [False] and leaves an empty pointer
    file; in a later run without the force switch that empty file makes
    the handler skip the video and return [True] with no call at all. *)
Theorem failed_write_leaves_empty_pointer {R} (E : Collab R) (it : item) lp
  (w : World R) data rest r1 e :
  subtitle_only E = false ->
  is_video_name E it = true ->
  force_regenerate E = false ->
  files w !! strm_path_of it lp = None ->
  client_fs_info E (remote w) (FileId it) = (Returned (data :: rest), r1) ->
  ~ lacks_required data ->
  io_fault E (files w) (OpOpen (strm_path_of it lp) ModeW) = None ->
  (utf8_encode (strm_url it data) = None /\ e = Exc "UnicodeEncodeError")
  \/ (exists bytes,
        utf8_encode (strm_url it data) = Some bytes
        /\ io_fault E (<[strm_path_of it lp := File []]> (files w))
             (OpWrite (strm_path_of it lp) bytes) = Some e) ->
  let w1 :=
    {| files := <[strm_path_of it lp := File []]> (files w);
       remote := r1;
       trace := trace w
                ++ [CallFsInfo (FileId it);
                    Log ERROR (MsgProcessFailed (FileName it) e)] |} in
  process_item E it lp w = (Returned (Some false), w1)
  /\ forall w2 : World R,
       files w2 = files w1 ->
       process_item E it lp w2 = (Returned (Some true), w2).
Proof.
  intros Hso Hv Hforce Hp Hinfo Hreq Hopen Hfail w1. split.
  - rewrite process_item_video by assumption.
    unfold try_except.
    rewrite (generate_strm_file_write_fails E it lp w data rest r1 e);
      try assumption.
    + unfold process_item_failed, bind, logger, ret, emit. simpl.
      rewrite <- app_assoc. reflexivity.
    + apply first_missing_none. exact Hreq.
  - intros w2 Hfiles.
    rewrite process_item_video by assumption.
    unfold try_except.
    rewrite generate_strm_file_skips; [reflexivity | | exact Hforce].
    rewrite Hfiles. simpl. rewrite lookup_insert_eq. eauto.
Qed.

Lemma failed_write_leaves_empty_pointer_witness :
  process_item ex_collab_full_disk ex_mkv (lit "/lib") (ex_world ex_lib)
  = (Returned (Some false),
     {| files := <[lit "/lib/Movie.strm" := File []]> ex_lib;
        remote := 1%nat;
        trace := [CallFsInfo 2;
                  Log ERROR (MsgProcessFailed (lit "Movie.mkv")
                               (Exc "OSError"))] |}).
Proof.
  apply (failed_write_leaves_empty_pointer ex_collab_full_disk ex_mkv
           (lit "/lib") (ex_world ex_lib) ex_meta [] 1%nat (Exc "OSError")).
  - reflexivity.
  - reflexivity.
  - reflexivity.
  - reflexivity.
  - reflexivity.
  - intros [[H _]|[[H _]|[H _]]]; vm_compute in H; discriminate H.
  - reflexivity.
  - right. exists ex_strm_bytes. split; vm_compute; reflexivity.
Defined.

(** X9: two videos whose base names sanitize to the same name share one
    pointer file: once the first has its pointer file, the handler skips
    the second (without the force switch) with no metadata call, and the
    file keeps the line of the first. *)
Theorem same_base_name_skipped {R} (E : Collab R) (it1 it2 : item) lp
  (w : World R) data rest r1 bytes :
  sanitize_filename (fst (os_path_splitext (FileName it1)))
  = sanitize_filename (fst (os_path_splitext (FileName it2))) ->
  subtitle_only E = false ->
  force_regenerate E = false ->
  is_video_name E it1 = true ->
  is_video_name E it2 = true ->
  files w !! strm_path_of it1 lp = None ->
  client_fs_info E (remote w) (FileId it1) = (Returned (data :: rest), r1) ->
  ~ lacks_required data ->
  utf8_encode (strm_url it1 data) = Some bytes ->
  no_fault_on E (strm_path_of it1 lp) ->
  exists w1,
    process_item E it1 lp w = (Returned (Some true), w1)
    /\ process_item E it2 lp w1 = (Returned (Some true), w1)
    /\ files w1 !! strm_path_of it2 lp = Some (File bytes).
Proof.
  intros Hsame Hso Hforce Hv1 Hv2 Hp Hinfo Hreq Hutf Hnf.
  assert (strm_path_of it2 lp = strm_path_of it1 lp) as Hpath.
  { unfold strm_path_of. rewrite Hsame. reflexivity. }
  eexists. split; [|split].
  - rewrite process_item_video by assumption.
    unfold try_except.
    rewrite (generate_strm_file_writes E it1 lp w data rest r1 bytes);
      try assumption; try reflexivity.
    + left. exact Hp.
    + rewrite Hp. discriminate.
    + apply first_missing_none. exact Hreq.
  - rewrite process_item_video by assumption.
    unfold try_except.
    rewrite generate_strm_file_skips; [reflexivity | | exact Hforce].
    rewrite Hpath. simpl. rewrite lookup_insert_eq. eauto.
  - rewrite Hpath. simpl. apply lookup_insert_eq.
Qed.

Lemma same_base_name_skipped_witness :
  exists w1,
    process_item (ex_collab true ex_meta ex_env_none) ex_mkv (lit "/lib")
      (ex_world ex_lib)
    = (Returned (Some true), w1)
    /\ process_item (ex_collab true ex_meta ex_env_none) ex_mp4 (lit "/lib")
         w1
       = (Returned (Some true), w1)
    /\ files w1 !! strm_path_of ex_mp4 (lit "/lib")
       = Some (File ex_strm_bytes).
Proof.
  apply (same_base_name_skipped (ex_collab true ex_meta ex_env_none)
           ex_mkv ex_mp4 (lit "/lib") (ex_world ex_lib) ex_meta [] 1%nat
           ex_strm_bytes).
  - vm_compute. reflexivity.
  - reflexivity.
  - reflexivity.
  - reflexivity.
  - reflexivity.
  - reflexivity.
  - reflexivity.
  - intros [[H _]|[[H _]|[H _]]]; vm_compute in H; discriminate H.
  - vm_compute. reflexivity.
  - intros fs. split; reflexivity.
Defined.

(** X10: the pointer line reads the metadata only under the keys [Etag],
    [etag], [S3KeyFlag], [s3keyflag] and [Size]: any other entry, the
    lower-case [size] among them, leaves the line as it is. When the
    metadata has no [Size] entry the line shows the size of the
    listing. *)
Theorem pointer_line_keys (it : item) (data : gmap pystr pyval) :
  (forall k v, ~ In k line_keys ->
     strm_url it (<[k := v]> data) = strm_url it data)
  /\ (forall v, strm_url it (<[lit "size" := v]> data) = strm_url it data)
  /\ (data !! lit "Size" = None ->
      strm_url it data
      = pointer_line (FileName it) (PInt (Size it)) (shown_etag data)
          (present_flag data)).
Proof.
  assert (forall k v, ~ In k line_keys ->
            strm_url it (<[k := v]> data) = strm_url it data) as Hind.
  { intros k v Hk. unfold strm_url, dict_get.
    rewrite !lookup_insert_ne; [reflexivity | ..];
      intros Heq; apply Hk; rewrite Heq; simpl; tauto. }
  split; [exact Hind|]. split.
  - intros v. apply Hind. vm_compute.
    intros [H|[H|[H|[H|[H|[]]]]]]; discriminate H.
  - intros Hsize. rewrite strm_url_pointer_line.
    unfold shown_size, present_value. rewrite Hsize. reflexivity.
Qed.

Lemma pointer_line_keys_witness :
  strm_url ex_mkv (<[lit "size" := PInt 7]> ex_meta_no_etag)
  = strm_url ex_mkv ex_meta_no_etag.
Proof.
  apply (proj1 (pointer_line_keys ex_mkv ex_meta_no_etag)).
  vm_compute. intros [H|[H|[H|[H|[H|[]]]]]]; discriminate H.
Defined.

(** ** The walker *)

Example nested_run_example :
  exists w',
    generate_strm (ex_collab_tree true) 2 (lit "/lib") 1 (ex_world ex_lib)
    = Some (Returned tt, w')
    /\ files w' !! lit "/lib/Season 1" = Some Dir
    /\ is_Some (files w' !! lit "/lib/Season 1/E01.strm")
    /\ files w' !! lit "/lib/Movie.srt" = Some (File ex_srt_bytes)
    /\ sleeps_of (trace w') = [2; 2; 1; 1; 1]%Z.
Proof.
  eexists. split; [vm_compute; reflexivity|].
  split; [vm_compute; reflexivity|].
  split; [vm_compute; eauto|].
  split; vm_compute; reflexivity.
Qed.

Section WalkerFacts.

Context {R : Type} (E : Collab R).

Lemma os_makedirs_ok d (w : World R) :
  d <> [] ->
  io_fault E (files w) (OpMakedirs d) = None ->
  (forall c, files w !! d <> Some (File c)) ->
  os_makedirs E d w = (Returned tt, set_files (made (files w) d) w).
Proof.
  intros Hne Hf Hnf. unfold os_makedirs, bind, io, made. rewrite Hf.
  destruct d as [|x d]; [contradiction|].
  destruct (files w !! (x :: d)) as [[c|]|] eqn:Hd.
  - exfalso. apply (Hnf c). reflexivity.
  - destruct w; reflexivity.
  - reflexivity.
Qed.

Lemma os_makedirs_file d c (w : World R) :
  d <> [] ->
  io_fault E (files w) (OpMakedirs d) = None ->
  files w !! d = Some (File c) ->
  os_makedirs E d w = (Raised (Exc "FileExistsError"), w).
Proof.
  intros Hne Hf Hd. unfold os_makedirs, bind, io. rewrite Hf.
  destruct d as [|x d]; [contradiction|]. rewrite Hd. reflexivity.
Qed.

(** [generate_strm] after a listing that raises. *)
Lemma generate_strm_listing_fails fuel lp parent_id (w : World R) e r1 :
  iterdir E (remote w) parent_id = (Raised e, r1) ->
  generate_strm E (S fuel) lp parent_id w
  = Some (Raised e,
          emit (Log CRITICAL (MsgDirFailed parent_id e))
            (set_remote r1
               (emit (CallIterdir parent_id)
                  (emit (Log INFO (MsgDirStart parent_id)) w)))).
Proof.
  intros Hlist. simpl.
  unfold try_exceptF, bindF, liftF, logger, call. simpl.
  rewrite Hlist. reflexivity.
Qed.

(** One turn of the loop over a directory item. *)
Lemma walk_items_dir recurse lp (it : item) rest (w : World R) :
  Type_ it <> 0%Z ->
  walk_items E recurse lp (it :: rest) w
  = match os_makedirs E (new_local_path_of it lp) (announced it w) with
    | (Raised e, w1) => Some (Raised e, w1)
    | (Returned _, w1) =>
        match recurse (new_local_path_of it lp) (FileId it) w1 with
        | None => None
        | Some (Raised e, w2) => Some (Raised e, w2)
        | Some (Returned _, w2) =>
            walk_items E recurse lp rest (emit (Sleep REQUEST_DELAY) w2)
        end
    end.
Proof.
  intros Hty. unfold new_local_path_of, announced. simpl.
  unfold bindF, liftF, logger, time_sleep.
  rewrite (proj2 (Z.eqb_neq _ _) Hty). simpl.
  destruct (os_makedirs E _ _) as [[u|e] w1]; [|reflexivity].
  destruct (recurse _ (FileId it) w1) as [[[u1|e] w2]|]; reflexivity.
Qed.

(** [generate_strm] after a listing that answers. *)
Lemma generate_strm_listing fuel lp parent_id (w : World R) items r1 :
  iterdir E (remote w) parent_id = (Returned items, r1) ->
  generate_strm E (S fuel) lp parent_id w
  = match walk_items E (generate_strm E fuel) lp items
            (listed parent_id r1 w) with
    | None => None
    | Some (Returned _, w2) =>
        Some (Returned tt, emit (Log INFO (MsgDirDone parent_id)) w2)
    | Some (Raised e, w2) =>
        Some (Raised e, emit (Log CRITICAL (MsgDirFailed parent_id e)) w2)
    end.
Proof.
  intros Hlist. simpl.
  unfold try_exceptF. unfold bindF at 1. unfold liftF at 1, logger at 1.
  unfold bindF at 1. unfold liftF at 1, call. simpl. rewrite Hlist.
  unfold bindF at 1. unfold liftF at 1, time_sleep at 1.
  unfold bindF at 1.
  change (emit (Sleep DIR_DELAY)
            (set_remote r1
               (emit (CallIterdir parent_id)
                  (emit (Log INFO (MsgDirStart parent_id)) w))))
    with (listed parent_id r1 w).
  destruct (walk_items E (generate_strm E fuel) lp items
              (listed parent_id r1 w)) as [[[u|e] w2]|]; reflexivity.
Qed.

(** An exception that leaves [generate_strm] has been logged as critical
    for its directory, last of all. *)
Lemma generate_strm_raised fuel lp parent_id (w : World R) e w' :
  generate_strm E fuel lp parent_id w = Some (Raised e, w') ->
  exists w1, w' = emit (Log CRITICAL (MsgDirFailed parent_id e)) w1.
Proof.
  destruct fuel as [|fuel]; [discriminate|]. simpl.
  unfold try_exceptF.
  match goal with
  | |- context [match ?m w with _ => _ end] =>
      destruct (m w) as [[[u|e0] w1]|]
  end; try discriminate.
  unfold bindF, liftF, logger, raise. intros H.
  inversion H; subst. eauto.
Qed.

End WalkerFacts.

(** X11: a directory whose listing answers with file items only is
    walked to its end, whatever happens to the items: [generate_strm]
    returns, and its last log record is the completion of the directory.
    On an empty listing it does nothing but log, list and pause. *)
Theorem flat_directory_completes {R} (E : Collab R) fuel lp parent_id
  (w : World R) items r1 :
  iterdir E (remote w) parent_id = (Returned items, r1) ->
  Forall (fun it => Type_ it = 0%Z) items ->
  (exists w2,
     generate_strm E (S fuel) lp parent_id w
     = Some (Returned tt, emit (Log INFO (MsgDirDone parent_id)) w2))
  /\ (items = [] ->
      generate_strm E (S fuel) lp parent_id w
      = Some (Returned tt,
              {| files := files w;
                 remote := r1;
                 trace := trace w
                          ++ [Log INFO (MsgDirStart parent_id);
                              CallIterdir parent_id;
                              Sleep DIR_DELAY;
                              Log INFO (MsgDirDone parent_id)] |})).
Proof.
  intros Hlist Hall. split.
  - rewrite (generate_strm_listing E fuel lp parent_id w items r1 Hlist).
    destruct (walk_items_files_return E (generate_strm E fuel) lp items Hall
                (listed parent_id r1 w)) as [w2 Hw2].
    rewrite Hw2. eauto.
  - intros ->.
    rewrite (generate_strm_listing E fuel lp parent_id w [] r1 Hlist).
    simpl. unfold liftF, ret, listed, emit, set_remote. simpl.
    repeat rewrite <- app_assoc. reflexivity.
Qed.

Lemma flat_directory_completes_witness :
  exists w2,
    generate_strm (ex_collab true ex_meta ex_env_none) 1 (lit "/lib") 1
      (ex_world ex_lib)
    = Some (Returned tt, emit (Log INFO (MsgDirDone 1)) w2).
Proof.
  apply (proj1 (flat_directory_completes
                  (ex_collab true ex_meta ex_env_none) O (lit "/lib") 1%Z
                  (ex_world ex_lib) [ex_mkv; ex_srt; ex_nfo] 1%nat
                  eq_refl
                  ltac:(repeat constructor))).
Defined.

(** X12: when the listing of a sub-directory raises, the walk of the
    parent stops there: the exception is logged as critical for the
    sub-directory and again for the parent and leaves [generate_strm], and
    the siblings after the sub-directory are not processed. *)
Theorem subdirectory_failure_aborts {R} (E : Collab R) fuel lp parent_id
  (w : World R) (d : item) rest r1 e r2 :
  iterdir E (remote w) parent_id = (Returned (d :: rest), r1) ->
  Type_ d <> 0%Z ->
  new_local_path_of d lp <> [] ->
  io_fault E (files w) (OpMakedirs (new_local_path_of d lp)) = None ->
  (forall c, files w !! new_local_path_of d lp <> Some (File c)) ->
  iterdir E r1 (FileId d) = (Raised e, r2) ->
  generate_strm E (S (S fuel)) lp parent_id w
  = Some (Raised e,
          {| files := made (files w) (new_local_path_of d lp);
             remote := r2;
             trace := trace w
                      ++ [Log INFO (MsgDirStart parent_id);
                          CallIterdir parent_id;
                          Sleep DIR_DELAY;
                          Log INFO (MsgProcessing (FileName d));
                          Log INFO (MsgDirStart (FileId d));
                          CallIterdir (FileId d);
                          Log CRITICAL (MsgDirFailed (FileId d) e);
                          Log CRITICAL (MsgDirFailed parent_id e)] |}).
Proof.
  intros Hlist Hty Hne Hf Hnf Hsub.
  rewrite (generate_strm_listing E (S fuel) lp parent_id w (d :: rest) r1
             Hlist).
  rewrite walk_items_dir by exact Hty.
  rewrite os_makedirs_ok; try assumption.
  rewrite (generate_strm_listing_fails E fuel (new_local_path_of d lp)
             (FileId d) _ e r2) by exact Hsub.
  unfold listed, announced, emit, set_files, set_remote. simpl.
  repeat rewrite <- app_assoc. reflexivity.
Qed.

Lemma subdirectory_failure_aborts_witness :
  generate_strm (ex_collab_tree false) 2 (lit "/lib") 1 (ex_world ex_lib)
  = Some (Raised (Exc "ConnectError"),
          {| files := <[lit "/lib/Season 1" := Dir]> ex_lib;
             remote := 2%nat;
             trace := [Log INFO (MsgDirStart 1);
                       CallIterdir 1;
                       Sleep DIR_DELAY;
                       Log INFO (MsgProcessing (lit "Season 1"));
                       Log INFO (MsgDirStart 5);
                       CallIterdir 5;
                       Log CRITICAL (MsgDirFailed 5 (Exc "ConnectError"));
                       Log CRITICAL (MsgDirFailed 1 (Exc "ConnectError"))] |}).
Proof.
  apply (subdirectory_failure_aborts (ex_collab_tree false) O (lit "/lib")
           1%Z (ex_world ex_lib) ex_season [ex_srt] 1%nat
           (Exc "ConnectError") 2%nat).
  - reflexivity.
  - discriminate.
  - vm_compute. discriminate.
  - reflexivity.
  - intros c. vm_compute. discriminate.
  - reflexivity.
Defined.

(** X13: whatever leaves [generate_strm] is logged last of all: an
    exception as critical for its directory, a return as the completion of
    the directory. *)
Theorem walker_outcome_logged {R} (E : Collab R) fuel lp parent_id
  (w : World R) o w' :
  generate_strm E fuel lp parent_id w = Some (o, w') ->
  match o with
  | Raised e =>
      exists w1, w' = emit (Log CRITICAL (MsgDirFailed parent_id e)) w1
  | Returned _ =>
      exists w1, w' = emit (Log INFO (MsgDirDone parent_id)) w1
  end.
Proof.
  destruct o as [u|e]; [|apply generate_strm_raised].
  destruct fuel as [|fuel]; [discriminate|]. simpl.
  unfold try_exceptF.
  match goal with
  | |- context [match ?m w with _ => _ end] =>
      destruct (m w) as [[[u0|e0] w1]|] eqn:Hm
  end; try discriminate.
  intros H. inversion H; subst. clear H.
  unfold bindF at 1 in Hm. unfold liftF at 1, logger at 1 in Hm.
  unfold bindF at 1 in Hm.
  match type of Hm with
  | context [match ?m ?x with _ => _ end] =>
      destruct (m x) as [[[items|e1] w2]|]
  end; try discriminate.
  unfold bindF at 1 in Hm. unfold liftF at 1, time_sleep at 1 in Hm.
  unfold bindF at 1 in Hm.
  match type of Hm with
  | context [match ?m ?x with _ => _ end] =>
      destruct (m x) as [[[u1|e1] w3]|]
  end; try discriminate.
  unfold liftF, logger in Hm. inversion Hm; subst. eauto.
Qed.

Lemma walker_outcome_logged_witness :
  exists w1,
    ex_first_run = emit (Log INFO (MsgDirDone 1)) w1.
Proof.
  apply (walker_outcome_logged (ex_collab true ex_meta ex_env_none) 1
           (lit "/lib") 1%Z (ex_world ex_lib) (Returned tt) ex_first_run).
  vm_compute. reflexivity.
Defined.

(** X14: when the local path of a remote sub-directory is taken by a
    regular file, [os.makedirs] raises [FileExistsError]: the walk of the
    parent stops at that item with a critical log record and the exception
    leaves [generate_strm]; no file is touched and the siblings after the
    item are not processed. *)
Theorem directory_name_taken_by_file {R} (E : Collab R) fuel lp parent_id
  (w : World R) (d : item) rest r1 c :
  iterdir E (remote w) parent_id = (Returned (d :: rest), r1) ->
  Type_ d <> 0%Z ->
  new_local_path_of d lp <> [] ->
  io_fault E (files w) (OpMakedirs (new_local_path_of d lp)) = None ->
  files w !! new_local_path_of d lp = Some (File c) ->
  generate_strm E (S fuel) lp parent_id w
  = Some (Raised (Exc "FileExistsError"),
          {| files := files w;
             remote := r1;
             trace := trace w
                      ++ [Log INFO (MsgDirStart parent_id);
                          CallIterdir parent_id;
                          Sleep DIR_DELAY;
                          Log INFO (MsgProcessing (FileName d));
                          Log CRITICAL
                            (MsgDirFailed parent_id
                               (Exc "FileExistsError"))] |}).
Proof.
  intros Hlist Hty Hne Hf Hfile.
  rewrite (generate_strm_listing E fuel lp parent_id w (d :: rest) r1 Hlist).
  rewrite walk_items_dir by exact Hty.
  rewrite (os_makedirs_file E _ c) by assumption.
  unfold listed, announced, emit, set_remote. simpl.
  repeat rewrite <- app_assoc. reflexivity.
Qed.

Lemma directory_name_taken_by_file_witness :
  generate_strm (ex_collab_tree true) 2 (lit "/lib") 1
    (ex_world ex_lib_with_season_file)
  = Some (Raised (Exc "FileExistsError"),
          {| files := ex_lib_with_season_file;
             remote := 1%nat;
             trace := [Log INFO (MsgDirStart 1);
                       CallIterdir 1;
                       Sleep DIR_DELAY;
                       Log INFO (MsgProcessing (lit "Season 1"));
                       Log CRITICAL
                         (MsgDirFailed 1 (Exc "FileExistsError"))] |}).
Proof.
  apply (directory_name_taken_by_file (ex_collab_tree true) 1 (lit "/lib")
           1%Z (ex_world ex_lib_with_season_file) ex_season [ex_srt] 1%nat
           []).
  - reflexivity.
  - discriminate.
  - vm_compute. discriminate.
  - reflexivity.
  - vm_compute. reflexivity.
Defined.

(** ** What the whole walk keeps *)

Lemma keeps_entries_refl fs : keeps_entries fs fs.
Proof. intros q. destruct (fs !! q) as [[c|]|]; eauto. Qed.

Lemma keeps_entries_trans fs1 fs2 fs3 :
  keeps_entries fs1 fs2 -> keeps_entries fs2 fs3 -> keeps_entries fs1 fs3.
Proof.
  intros H12 H23 q. specialize (H12 q). specialize (H23 q).
  destruct (fs1 !! q) as [[c|]|]; auto.
  - destruct H12 as [x Hx]. rewrite Hx in H23. exact H23.
  - rewrite H12 in H23. exact H23.
Qed.

Lemma extends_keeps fs fs' : extends_files fs fs' -> keeps_entries fs fs'.
Proof.
  intros H q. specialize (H q). destruct (fs !! q) as [[c|]|]; auto.
  destruct H as [x Hx]. eauto.
Qed.

Lemma keeps_entries_insert_new fs p n :
  fs !! p = None -> keeps_entries fs (<[p := n]> fs).
Proof.
  intros Hp. apply extends_keeps, extends_files_insert_new. exact Hp.
Qed.

Lemma keeps_entries_insert_file fs p c c' :
  fs !! p = Some (File c) -> keeps_entries fs (<[p := File c']> fs).
Proof.
  intros Hp q. destruct (decide (p = q)) as [<-|Hne].
  - rewrite Hp. exists c'. apply lookup_insert_eq.
  - rewrite lookup_insert_ne by exact Hne.
    destruct (fs !! q) as [[x|]|]; eauto.
Qed.

Section KeepsEntries.

Context {R : Type} (E : Collab R).

Lemma m_keeps_same_files {A} (m : M R A) :
  (forall w, files (snd (m w)) = files w) -> m_keeps m.
Proof. intros H w. rewrite H. apply keeps_entries_refl. Qed.

Lemma m_keeps_bind {A B} (m : M R A) (k : A -> M R B) :
  m_keeps m -> (forall a, m_keeps (k a)) -> m_keeps (bind m k).
Proof.
  intros Hm Hk w. unfold bind. specialize (Hm w).
  destruct (m w) as [[a|e] w1]; simpl in *; [|exact Hm].
  eapply keeps_entries_trans; [exact Hm | apply Hk].
Qed.

Lemma m_keeps_try_except {A} (m : M R A) (h : exn -> M R A) :
  m_keeps m -> (forall e, m_keeps (h e)) -> m_keeps (try_except m h).
Proof.
  intros Hm Hh w. unfold try_except. specialize (Hm w).
  destruct (m w) as [[a|e] w1]; simpl in *; [exact Hm|].
  eapply keeps_entries_trans; [exact Hm | apply Hh].
Qed.

Lemma m_keeps_ret {A} (a : A) : m_keeps (ret a : M R A).
Proof. apply m_keeps_same_files. reflexivity. Qed.

Lemma m_keeps_raise {A} e : m_keeps (raise e : M R A).
Proof. apply m_keeps_same_files. reflexivity. Qed.

Lemma m_keeps_logger lvl msg : m_keeps (logger lvl msg : M R unit).
Proof. apply m_keeps_same_files. reflexivity. Qed.

Lemma m_keeps_time_sleep s : m_keeps (time_sleep s : M R unit).
Proof. apply m_keeps_same_files. reflexivity. Qed.

Lemma m_keeps_call {A} ev (f : R -> outcome A * R) : m_keeps (call ev f).
Proof.
  apply m_keeps_same_files. intros w. unfold call. simpl.
  destruct (f (remote w)); reflexivity.
Qed.

Lemma m_keeps_os_path_exists p : m_keeps (os_path_exists p : M R bool).
Proof. apply m_keeps_same_files. reflexivity. Qed.

Lemma m_keeps_io op : m_keeps (io E op).
Proof.
  apply m_keeps_same_files. intros w. unfold io.
  destruct (io_fault E (files w) op); reflexivity.
Qed.

Lemma m_keeps_os_makedirs d : m_keeps (os_makedirs E d).
Proof. intros w. apply extends_keeps, os_makedirs_extends. Qed.

Lemma m_keeps_open_file p mode : m_keeps (open_file E p mode).
Proof.
  unfold open_file. apply m_keeps_bind; [apply m_keeps_io|].
  intros _ w.
  destruct (files w !! p) as [[c|]|] eqn:Hp; destruct mode; simpl;
    try apply keeps_entries_refl;
    try (apply (keeps_entries_insert_file _ p c); exact Hp);
    apply keeps_entries_insert_new; exact Hp.
Qed.

Lemma m_keeps_file_write p data : m_keeps (file_write E p data).
Proof.
  unfold file_write. apply m_keeps_bind; [apply m_keeps_io|].
  intros _ w.
  destruct (files w !! p) as [[c|]|] eqn:Hp; simpl;
    try apply keeps_entries_refl.
  apply (keeps_entries_insert_file _ p c). exact Hp.
Qed.

Lemma m_keeps_file_write_text p text : m_keeps (file_write_text E p text).
Proof.
  unfold file_write_text. destruct (utf8_encode text);
    [apply m_keeps_file_write | apply m_keeps_raise].
Qed.

Lemma m_keeps_download_file (it : item) p : m_keeps (download_file E it p).
Proof.
  intros w. apply extends_keeps. unfold download_file, retry.
  apply retry_from_extends. intros w0. apply download_file_body_extends.
Qed.

Lemma m_keeps_generate_strm_file (it : item) lp :
  m_keeps (generate_strm_file E it lp).
Proof.
  unfold generate_strm_file.
  apply m_keeps_bind; [apply m_keeps_os_path_exists|]. intros ex.
  destruct (negb ex || _); [|apply m_keeps_ret].
  apply m_keeps_bind; [apply m_keeps_call|]. intros info.
  apply m_keeps_bind.
  { unfold first_info. destruct info; [apply m_keeps_raise | apply m_keeps_ret]. }
  intros data. destruct (first_missing E data).
  - apply m_keeps_bind; [apply m_keeps_logger|]. intros _. apply m_keeps_ret.
  - apply m_keeps_bind; [apply m_keeps_open_file|]. intros _.
    apply m_keeps_bind; [apply m_keeps_file_write_text|]. intros _.
    apply m_keeps_bind; [apply m_keeps_logger|]. intros _. apply m_keeps_ret.
Qed.

Lemma m_keeps_process_item (it : item) lp : m_keeps (process_item E it lp).
Proof.
  unfold process_item. apply m_keeps_try_except.
  - destruct (_ && _); [apply m_keeps_generate_strm_file|].
    destruct (endswith _ SUBTITLE_EXTS); [|apply m_keeps_ret].
    apply m_keeps_bind; [apply m_keeps_download_file|].
    intros b. apply m_keeps_ret.
  - intros e. apply m_keeps_bind; [apply m_keeps_logger|].
    intros _. apply m_keeps_ret.
Qed.

Lemma mf_keeps_liftF {A} (m : M R A) : m_keeps m -> mf_keeps (liftF m).
Proof.
  intros Hm w o w' H. unfold liftF in H. inversion H as [H1].
  specialize (Hm w). rewrite H1 in Hm. exact Hm.
Qed.

Lemma mf_keeps_bindF {A B} (m : MF R A) (k : A -> MF R B) :
  mf_keeps m -> (forall a, mf_keeps (k a)) -> mf_keeps (bindF m k).
Proof.
  intros Hm Hk w o w' H. unfold bindF in H.
  destruct (m w) as [[[a|e] w1]|] eqn:Hmw; [| |discriminate].
  - eapply keeps_entries_trans; [apply (Hm w _ _ Hmw)|].
    apply (Hk a w1 _ _ H).
  - inversion H; subst. apply (Hm w _ _ Hmw).
Qed.

Lemma mf_keeps_try_exceptF {A} (m : MF R A) (h : exn -> MF R A) :
  mf_keeps m -> (forall e, mf_keeps (h e)) -> mf_keeps (try_exceptF m h).
Proof.
  intros Hm Hh w o w' H. unfold try_exceptF in H.
  destruct (m w) as [[[a|e] w1]|] eqn:Hmw; [| |discriminate].
  - inversion H; subst. apply (Hm w _ _ Hmw).
  - eapply keeps_entries_trans; [apply (Hm w _ _ Hmw)|].
    apply (Hh e w1 _ _ H).
Qed.

Lemma mf_keeps_walk_items recurse lp items :
  (forall a b, mf_keeps (recurse a b)) ->
  mf_keeps (walk_items E recurse lp items).
Proof.
  intros Hrec. induction items as [|it items IH]; simpl.
  - apply mf_keeps_liftF, m_keeps_ret.
  - apply mf_keeps_bindF; [apply mf_keeps_liftF, m_keeps_logger|].
    intros _. apply mf_keeps_bindF; [|intros _; exact IH].
    destruct (negb _).
    + apply mf_keeps_bindF; [apply mf_keeps_liftF, m_keeps_os_makedirs|].
      intros _. apply mf_keeps_bindF; [apply Hrec|].
      intros _. apply mf_keeps_liftF, m_keeps_time_sleep.
    + apply mf_keeps_bindF; [apply mf_keeps_liftF, m_keeps_process_item|].
      intros r. destruct (result_truthy r); apply mf_keeps_liftF;
        [apply m_keeps_time_sleep | apply m_keeps_ret].
Qed.

Lemma mf_keeps_generate_strm fuel : forall lp parent_id,
  mf_keeps (generate_strm E fuel lp parent_id).
Proof.
  induction fuel as [|fuel IH]; intros lp parent_id; simpl.
  - intros w o w' H. discriminate H.
  - apply mf_keeps_try_exceptF.
    + apply mf_keeps_bindF; [apply mf_keeps_liftF, m_keeps_logger|].
      intros _. apply mf_keeps_bindF; [apply mf_keeps_liftF, m_keeps_call|].
      intros items.
      apply mf_keeps_bindF; [apply mf_keeps_liftF, m_keeps_time_sleep|].
      intros _. apply mf_keeps_bindF.
      * apply mf_keeps_walk_items. intros a b. apply IH.
      * intros _. apply mf_keeps_liftF, m_keeps_logger.
    + intros e. apply mf_keeps_bindF;
        [apply mf_keeps_liftF, m_keeps_logger|].
      intros _. apply mf_keeps_liftF, m_keeps_raise.
Qed.

(** A loop with a recursive call that has more results has more
    results. *)
Lemma walk_items_below rec1 rec2 lp items :
  (forall a b, below (rec1 a b) (rec2 a b)) ->
  below (walk_items E rec1 lp items) (walk_items E rec2 lp items).
Proof.
  intros Hrec. induction items as [|it items IH]; intros w r H.
  - exact H.
  - simpl in *. unfold bindF at 1. unfold bindF at 1 in H.
    destruct (liftF (logger INFO (MsgProcessing (FileName it))) w)
      as [[[u|e] w1]|]; [| exact H | exact H].
    unfold bindF at 1. unfold bindF at 1 in H.
    destruct (negb (Type_ it =? 0)%Z).
    + unfold bindF at 1. unfold bindF at 1 in H.
      destruct (liftF (os_makedirs E _) w1) as [[[u1|e] w2]|];
        [| exact H | exact H].
      unfold bindF at 1. unfold bindF at 1 in H.
      destruct (rec1 _ (FileId it) w2) as [[[u2|e] w3]|] eqn:H1;
        [| |discriminate H].
      * rewrite (Hrec _ _ _ _ H1).
        destruct (liftF (time_sleep REQUEST_DELAY) w3) as [[[u3|e] w4]|];
          [| exact H | exact H].
        apply IH. exact H.
      * rewrite (Hrec _ _ _ _ H1). exact H.
    + match type of H with
      | context [match ?m with _ => _ end] =>
          destruct m as [[[u1|e] w2]|]
      end; [| exact H | exact H].
      apply IH. exact H.
Qed.

Lemma generate_strm_below fuel : forall lp parent_id,
  below (generate_strm E fuel lp parent_id)
        (generate_strm E (S fuel) lp parent_id).
Proof.
  induction fuel as [|fuel IH]; intros lp parent_id w r H.
  - discriminate H.
  - change (generate_strm E (S fuel) lp parent_id w) with
      (try_exceptF
         (_ <-- liftF (logger INFO (MsgDirStart parent_id)) ;;
          items <-- liftF (call (CallIterdir parent_id)
                                (fun r => iterdir E r parent_id)) ;;
          _ <-- liftF (time_sleep DIR_DELAY) ;;
          _ <-- walk_items E (generate_strm E fuel) lp items ;;
          liftF (logger INFO (MsgDirDone parent_id)))
         (fun e =>
            _ <-- liftF (logger CRITICAL (MsgDirFailed parent_id e)) ;;
            liftF (raise e)) w) in H.
    change (generate_strm E (S (S fuel)) lp parent_id w) with
      (try_exceptF
         (_ <-- liftF (logger INFO (MsgDirStart parent_id)) ;;
          items <-- liftF (call (CallIterdir parent_id)
                                (fun r => iterdir E r parent_id)) ;;
          _ <-- liftF (time_sleep DIR_DELAY) ;;
          _ <-- walk_items E (generate_strm E (S fuel)) lp items ;;
          liftF (logger INFO (MsgDirDone parent_id)))
         (fun e =>
            _ <-- liftF (logger CRITICAL (MsgDirFailed parent_id e)) ;;
            liftF (raise e)) w).
    unfold try_exceptF in *.
    unfold bindF at 1. unfold bindF at 1 in H.
    destruct (liftF (logger INFO (MsgDirStart parent_id)) w)
      as [[[u|e] w1]|]; [| exact H | exact H].
    unfold bindF at 1. unfold bindF at 1 in H.
    destruct (liftF (call (CallIterdir parent_id) _) w1)
      as [[[items|e] w2]|]; [| exact H | exact H].
    unfold bindF at 1. unfold bindF at 1 in H.
    destruct (liftF (time_sleep DIR_DELAY) w2) as [[[u1|e] w3]|];
      [| exact H | exact H].
    unfold bindF at 1. unfold bindF at 1 in H.
    destruct (walk_items E (generate_strm E fuel) lp items w3)
      as [[[u2|e] w4]|] eqn:Hw; [| |discriminate H].
    + rewrite (walk_items_below _ _ lp items (fun a b => IH a b) _ _ Hw).
      exact H.
    + rewrite (walk_items_below _ _ lp items (fun a b => IH a b) _ _ Hw).
      exact H.
Qed.

End KeepsEntries.

(** X15: whatever its outcome, a run of the handler or of the walker over
    a whole tree removes no entry of the local file system and turns no
    file into a directory or directory into a file. *)
Theorem walk_keeps_entries {R} (E : Collab R) :
  (forall (it : item) lp (w : World R),
     keeps_entries (files w) (files (snd (process_item E it lp w))))
  /\ (forall fuel lp parent_id (w : World R) o w',
        generate_strm E fuel lp parent_id w = Some (o, w') ->
        keeps_entries (files w) (files w')).
Proof.
  split.
  - intros it lp w. apply m_keeps_process_item.
  - intros fuel lp parent_id w o w' H.
    apply (mf_keeps_generate_strm E fuel lp parent_id w o w' H).
Qed.

Lemma walk_keeps_entries_witness :
  keeps_entries ex_lib_with_strm
    (files (match generate_strm (ex_collab true ex_meta ex_env_debug) 1
                    (lit "/lib") 1 (ex_world ex_lib_with_strm) with
            | Some (_, w') => w'
            | None => ex_world ex_lib_with_strm
            end)).
Proof.
  destruct (generate_strm (ex_collab true ex_meta ex_env_debug) 1
              (lit "/lib") 1 (ex_world ex_lib_with_strm))
    as [[o w']|] eqn:H.
  - apply (proj2 (walk_keeps_entries (ex_collab true ex_meta ex_env_debug))
             1%nat (lit "/lib") 1%Z (ex_world ex_lib_with_strm) o w' H).
  - vm_compute in H. discriminate H.
Defined.

(** The result of a walk does not depend on the fuel: a walk that comes
    to a result with some fuel comes to the same result with any larger
    fuel. *)
Theorem generate_strm_fuel_monotone {R} (E : Collab R) fuel fuel' lp
  parent_id (w : World R) r :
  (fuel <= fuel')%nat ->
  generate_strm E fuel lp parent_id w = Some r ->
  generate_strm E fuel' lp parent_id w = Some r.
Proof.
  intros Hle H. induction Hle as [|fuel' Hle IH]; [exact H|].
  apply generate_strm_below. exact IH.
Qed.

Lemma generate_strm_fuel_monotone_witness :
  generate_strm (ex_collab_tree true) 7 (lit "/lib") 1 (ex_world ex_lib)
  = generate_strm (ex_collab_tree true) 2 (lit "/lib") 1 (ex_world ex_lib).
Proof.
  destruct (generate_strm (ex_collab_tree true) 2 (lit "/lib") 1
              (ex_world ex_lib)) as [r|] eqn:H.
  - apply (generate_strm_fuel_monotone (ex_collab_tree true) 2 7
             (lit "/lib") 1%Z (ex_world ex_lib) r); [lia | exact H].
  - vm_compute in H. discriminate H.
Defined.

(** ** The downloader with the remote side out of reach *)

Lemma download_file_body_unresolved {R} (E : Collab R) (it : item) p
  (w : World R) e r1 :
  client_download_info E (remote w) it = (Raised e, r1) ->
  download_file_body E it p w
  = (Raised e,
     {| files := files w;
        remote := r1;
        trace := trace w
                 ++ [CallDownloadInfo it;
                     Log ERROR (MsgDownloadFailed p e)] |}).
Proof.
  intros Hinfo. unfold download_file_body, try_except.
  unfold bind at 1. unfold call. simpl. rewrite Hinfo.
  unfold bind, logger, raise, emit, set_remote. simpl.
  rewrite <- app_assoc. reflexivity.
Qed.

(** X16: when the URL resolution raises on each of the three attempts,
    the download raises [RetryError] having made three URL resolutions and
    no GET, and touches no file, whether or not the local file was already
    complete. *)
Theorem unreachable_remote_touches_nothing {R} (E : Collab R) (it : item) p
  (w : World R) e1 r1 e2 r2 e3 r3 :
  client_download_info E (remote w) it = (Raised e1, r1) ->
  client_download_info E r1 it = (Raised e2, r2) ->
  client_download_info E r2 it = (Raised e3, r3) ->
  download_file E it p w
  = (Raised (RetryError e3),
     {| files := files w;
        remote := r3;
        trace := trace w
                 ++ [CallDownloadInfo it;
                     Log ERROR (MsgDownloadFailed p e1);
                     Log WARNING MsgRetrying;
                     Sleep 2;
                     CallDownloadInfo it;
                     Log ERROR (MsgDownloadFailed p e2);
                     Log WARNING MsgRetrying;
                     Sleep 2;
                     CallDownloadInfo it;
                     Log ERROR (MsgDownloadFailed p e3)] |}).
Proof.
  intros H1 H2 H3. unfold download_file, retry. simpl.
  unfold try_except at 1.
  rewrite (download_file_body_unresolved E it p w e1 r1 H1).
  unfold bind at 1. unfold logger at 1.
  unfold bind at 1. unfold time_sleep at 1.
  change (wait_exponential 1 2 10 1) with 2%Z.
  unfold try_except at 1.
  rewrite (download_file_body_unresolved E it p _ e2 r2) by exact H2.
  unfold bind at 1. unfold logger at 1.
  unfold bind at 1. unfold time_sleep at 1.
  change (wait_exponential 1 2 10 2) with 2%Z.
  unfold try_except at 1.
  rewrite (download_file_body_unresolved E it p _ e3 r3) by exact H3.
  unfold raise, emit. simpl.
  repeat rewrite <- app_assoc. reflexivity.
Qed.

Lemma unreachable_remote_touches_nothing_witness :
  fst (download_file (ex_collab false ex_meta ex_env_none) ex_srt
         (lit "/lib/Movie.srt") (ex_world (ex_lib_with_srt ex_srt_bytes)))
  = Raised (RetryError (Exc "ConnectError")).
Proof.
  rewrite (unreachable_remote_touches_nothing
             (ex_collab false ex_meta ex_env_none) ex_srt
             (lit "/lib/Movie.srt")
             (ex_world (ex_lib_with_srt ex_srt_bytes))
             (Exc "ConnectError") 1%nat (Exc "ConnectError") 2%nat
             (Exc "ConnectError") 3%nat eq_refl eq_refl eq_refl).
  reflexivity.
Defined.

(** ** The names of the local files *)

Lemma startswith_app (a b : pystr) : startswith (a ++ b) a = true.
Proof.
  induction a as [|x a IH]; simpl; [apply startswith_nil|].
  rewrite N.eqb_refl. exact IH.
Qed.

Lemma endswith1_app (a b : pystr) : endswith1 (a ++ b) b = true.
Proof. unfold endswith1. rewrite rev_app_distr. apply startswith_app. Qed.

Lemma joiner_length (a : pystr) : (length (joiner a) <= 1)%nat.
Proof. unfold joiner. destruct (_ || _); simpl; lia. Qed.

(** X17: the path of a pointer file always ends in [.strm], whatever the
    length of the remote name: the name is cut to 200 characters before the
    extension is added, so the path is at most 206 characters longer than
    the local directory. The path of a subtitle is at most 201 characters
    longer than the local directory: the cut takes its extension with it
    when the name is longer. *)
Theorem local_file_names (it : item) (lp : pystr) :
  endswith1 (strm_path_of it lp) (lit ".strm") = true
  /\ (length (strm_path_of it lp) <= length lp + 206)%nat
  /\ (length (sub_path_of it lp) <= length lp + 201)%nat.
Proof.
  split; [|split].
  - rewrite strm_path_of_eq.
    replace (lp ++ joiner lp
             ++ sanitize_filename (fst (os_path_splitext (FileName it)))
             ++ lit ".strm")
      with ((lp ++ joiner lp
             ++ sanitize_filename (fst (os_path_splitext (FileName it))))
            ++ lit ".strm")
      by (repeat rewrite <- app_assoc; reflexivity).
    apply endswith1_app.
  - rewrite strm_path_of_eq, !length_app.
    pose proof (joiner_length lp).
    pose proof (sanitize_length (fst (os_path_splitext (FileName it)))).
    change (length (lit ".strm")) with 5%nat. lia.
  - rewrite sub_path_of_eq, !length_app.
    pose proof (joiner_length lp).
    pose proof (sanitize_length (FileName it)). lia.
Qed.
